(** * CropCare: history store, analysis flow and camera capture

    A shallow embedding of the application shell ([App], the file that
    defines [saveToHistory] and [handleImageAnalysis]) and of the image
    source component ([src/components/ImageUpload.tsx]).

    Browser facilities the code calls but does not define (the JSON codec,
    [localStorage], the analysis client, the canvas 2D context, media
    streams) are either passed in as parameters or modelled after their
    specification; each such place says so. *)

From Stdlib Require Import ZArith Lia List String Ascii Bool.
From stdpp Require Import base option list strings gmap.

Local Open Scope string_scope.
Local Open Scope list_scope.
Set Warnings "-register-all".

(* ===================================================================== *)
(** ** JavaScript values, completions and the JSON codec                 *)
(* ===================================================================== *)

Module JS.

(** The JSON-representable fragment of JavaScript values.  Numbers are
    carried around by the code under study and never computed on. *)
Inductive js_value : Type :=
| JNull
| JBool (b : bool)
| JNum (n : Z)
| JStr (s : string)
| JArr (items : list js_value)
| JObj (fields : list (string * js_value)).

Inductive js_error : Type :=
| SyntaxError
| TypeError
| QuotaExceededError.

(** A JavaScript completion: a normal value or a thrown exception. *)
Inductive completion (A : Type) : Type :=
| Normal (a : A)
| Throw (e : js_error).
Arguments Normal {A} a.
Arguments Throw {A} e.

Definition bind {A B} (c : completion A) (k : A -> completion B) : completion B :=
  match c with
  | Normal a => k a
  | Throw e => Throw e
  end.

Notation "'do' x <- c ; k" := (bind c (fun x => k))
  (at level 10, x name, c at level 100, k at level 200).

(** [ToBoolean] on strings: only the empty string is falsy. *)
Definition truthy (s : string) : bool :=
  match s with
  | EmptyString => false
  | String _ _ => true
  end.

(** [ToBoolean] on [string | null]. *)
Definition truthy_opt (o : option string) : bool :=
  match o with
  | Some s => truthy s
  | None => false
  end.

(** [history.unshift(x)]: defined on arrays; on any other parsed value the
    property lookup yields [undefined] (or fails on [null]) and the call
    throws a [TypeError]. *)
Definition unshift (x : js_value) (v : js_value) : completion js_value :=
  match v with
  | JArr items => Normal (JArr (x :: items))
  | _ => Throw TypeError
  end.

(** [history.slice(0, n)], same remark. *)
Definition slice0 (n : nat) (v : js_value) : completion js_value :=
  match v with
  | JArr items => Normal (JArr (take n items))
  | _ => Throw TypeError
  end.

(** [JSON.parse] and [JSON.stringify] are built-ins of the host: they are
    parameters of the development. *)
Record json_codec : Type := {
  JSON_parse : string -> completion js_value;
  JSON_stringify : js_value -> string
}.

End JS.
Import JS.

(* ===================================================================== *)
(** ** The application shell                                             *)
(* ===================================================================== *)

Module App.

Record Location : Type := {
  latitude : Z;
  longitude : Z
}.

(** [ScanResult['results']], the payload returned by the analysis client. *)
Record AnalysisResults : Type := {
  crop_name : string;
  disease_detected : bool;
  disease_name : string;
  confidence_percentage : Z;
  danger_level : Z;
  symptoms : list string;
  treatments : list string;
  prevention_tips : list string;
  disease_description : string
}.

(** The last field is [results] in the source; it is [results_] here
    because the component state has a cell of the same name. *)
Record ScanResult : Type := {
  id : string;
  date : string;
  imageUrl : string;
  cropName : string;
  diseaseDetected : bool;
  diseaseName : string;
  confidencePercentage : Z;
  results_ : AnalysisResults
}.

Definition strings_to_js (l : list string) : js_value := JArr (map JStr l).

Definition AnalysisResults_to_js (r : AnalysisResults) : js_value :=
  JObj [ ("crop_name", JStr (crop_name r));
         ("disease_detected", JBool (disease_detected r));
         ("disease_name", JStr (disease_name r));
         ("confidence_percentage", JNum (confidence_percentage r));
         ("danger_level", JNum (danger_level r));
         ("symptoms", strings_to_js (symptoms r));
         ("treatments", strings_to_js (treatments r));
         ("prevention_tips", strings_to_js (prevention_tips r));
         ("disease_description", JStr (disease_description r)) ].

Definition ScanResult_to_js (s : ScanResult) : js_value :=
  JObj [ ("id", JStr (id s));
         ("date", JStr (date s));
         ("imageUrl", JStr (imageUrl s));
         ("cropName", JStr (cropName s));
         ("diseaseDetected", JBool (diseaseDetected s));
         ("diseaseName", JStr (diseaseName s));
         ("confidencePercentage", JNum (confidencePercentage s));
         ("results", AnalysisResults_to_js (results_ s)) ].

(** *** localStorage

    A string-to-string map; [getItem] returns [null] for a missing key.
    [setItem] throws a [QuotaExceededError] when the browser has no room for
    the new value and then leaves the store as it was.  How much room there
    is, is the browser's affair: a [Quota] tells, for a key, a value and the
    store as it is, whether the write is accepted. *)

Definition Quota : Type := string -> string -> gmap string string -> bool.

Definition getItem (k : string) (ls : gmap string string) : option string := ls !! k.

Definition setItem (q : Quota) (k v : string) (ls : gmap string string)
    : completion (gmap string string) :=
  if q k v ls then Normal (<[k := v]> ls) else Throw QuotaExceededError.

Definition history_key : string := "cropcare_history".

(** What the host supplies to one call of [saveToHistory]:
    [crypto.randomUUID()] and [new Date().toLocaleString()]. *)
Record Stamp : Type := {
  uuid : string;
  now : string
}.

Definition historyItem (e : Stamp) (imageBase64 : string) (results : AnalysisResults) : ScanResult :=
  {| id := uuid e;
     date := now e;
     imageUrl := imageBase64;
     cropName := crop_name results;
     diseaseDetected := disease_detected results;
     diseaseName := disease_name results;
     confidencePercentage := confidence_percentage results;
     results_ := results |}.

(** [savedHistory ? JSON.parse(savedHistory) : []] *)
Definition parse_saved (J : json_codec) (savedHistory : option string) : completion js_value :=
  match savedHistory with
  | Some s => if truthy s then JSON_parse J s else Normal (JArr [])
  | None => Normal (JArr [])
  end.

Definition saveToHistory (J : json_codec) (q : Quota) (e : Stamp) (imageBase64 : string)
    (results : AnalysisResults) (ls : gmap string string) : completion (gmap string string) :=
  let item := historyItem e imageBase64 results in
  let savedHistory := getItem history_key ls in
  do history <- parse_saved J savedHistory;
  do history <- unshift (ScanResult_to_js item) history;
  do kept <- slice0 50 history;
  setItem q history_key (JSON_stringify J kept) ls.

(** One completed analysis as [saveToHistory] receives it. *)
Record Scan : Type := {
  scan_stamp : Stamp;
  scan_image : string;
  scan_results : AnalysisResults
}.

Definition entry (s : Scan) : js_value :=
  ScanResult_to_js (historyItem (scan_stamp s) (scan_image s) (scan_results s)).

(** [saveToHistory] called once per completed analysis, oldest first; the
    run goes on as long as no call throws. *)
Fixpoint saveAll (J : json_codec) (q : Quota) (scans : list Scan) (ls : gmap string string)
    : completion (gmap string string) :=
  match scans with
  | [] => Normal ls
  | s :: rest =>
      do ls1 <- saveToHistory J q (scan_stamp s) (scan_image s) (scan_results s) ls;
      saveAll J q rest ls1
  end.

(** What is assumed of the host's JSON codec.  [exact] singles out the
    values that [JSON.stringify] followed by [JSON.parse] reproduces
    (plain data: finite numbers, strings, booleans, arrays and objects of
    such); everything [JSON.parse] returns is of that kind, and so is every
    history item the application builds. *)
Record codec_laws (J : json_codec) (exact : js_value -> Prop) : Prop := {
  parse_stringify : forall items, Forall exact items ->
    JSON_parse J (JSON_stringify J (JArr items)) = Normal (JArr items);
  parse_exact : forall s items, JSON_parse J s = Normal (JArr items) -> Forall exact items;
  item_exact : forall r, exact (ScanResult_to_js r);
  stringify_truthy : forall v, truthy (JSON_stringify J v) = true
}.

(** The persisted history reads back as the array [items]. *)
Definition holds_history (J : json_codec) (exact : js_value -> Prop)
    (ls : gmap string string) (items : list js_value) : Prop :=
  parse_saved J (getItem history_key ls) = Normal (JArr items) /\ Forall exact items.

(** *** Component state of [App] *)

Inductive View : Type := scan | history | settings | developer.

Record State : Type := {
  analyzing : bool;
  results : option AnalysisResults;
  currentImage : option string;
  error : option string;
  currentView : View;
  location : option Location;
  showSplash : bool
}.

Definition setAnalyzing (b : bool) (st : State) : State :=
  {| analyzing := b; results := results st; currentImage := currentImage st;
     error := error st; currentView := currentView st; location := location st;
     showSplash := showSplash st |}.

Definition setResults (r : option AnalysisResults) (st : State) : State :=
  {| analyzing := analyzing st; results := r; currentImage := currentImage st;
     error := error st; currentView := currentView st; location := location st;
     showSplash := showSplash st |}.

Definition setCurrentImage (i : option string) (st : State) : State :=
  {| analyzing := analyzing st; results := results st; currentImage := i;
     error := error st; currentView := currentView st; location := location st;
     showSplash := showSplash st |}.

Definition setError (m : option string) (st : State) : State :=
  {| analyzing := analyzing st; results := results st; currentImage := currentImage st;
     error := m; currentView := currentView st; location := location st;
     showSplash := showSplash st |}.

(** The [File] objects handed over by the upload path; only the declared
    media type is ever inspected. *)
Record File : Type := {
  file_name : string;
  file_type : string
}.

(** What the host supplies to one run of [handleImageAnalysis]: the
    translation function [t], the data URL a [FileReader] produces for a
    file, the analysis client (module [./lib/gemini], an outbound request),
    the stamp used by [saveToHistory] and the room the browser's storage
    has. *)
Record Host : Type := {
  t : string -> string;
  readAsDataURL : File -> string;
  analyzeImage : string -> string -> option Location -> completion AnalysisResults;
  stamp : Stamp;
  quota : Quota
}.

(** The part of [handleImageAnalysis] that runs before the analysis client
    is awaited. *)
Definition handleImageAnalysis_begin (h : Host) (imageData : string + File)
    (st : State) : State * string :=
  let st := setAnalyzing true st in
  let st := setError None st in
  let base64Image :=
    match imageData with
    | inl s => s
    | inr f => readAsDataURL h f
    end in
  (setCurrentImage (Some base64Image) st, base64Image).

(** The [try] / [catch] / [finally] around the awaited client call. *)
Definition handleImageAnalysis_settle (J : json_codec) (h : Host) (base64Image : string)
    (st : State) (ls : gmap string string) : State * gmap string string :=
  let attempt :=
    do analysisResults <- analyzeImage h base64Image (t h "language") (location st);
    let st1 := setResults (Some analysisResults) st in
    match saveToHistory J (quota h) (stamp h) base64Image analysisResults ls with
    | Normal ls1 => Normal (st1, ls1)
    | Throw _ => Normal (setError (Some (t h "error.analysis")) st1, ls)
    end in
  let '(st2, ls2) :=
    match attempt with
    | Normal r => r
    | Throw _ => (setError (Some (t h "error.analysis")) st, ls)
    end in
  (setAnalyzing false st2, ls2).

Definition handleImageAnalysis (J : json_codec) (h : Host) (imageData : string + File)
    (st : State) (ls : gmap string string) : State * gmap string string :=
  let '(st1, base64Image) := handleImageAnalysis_begin h imageData st in
  handleImageAnalysis_settle J h base64Image st1 ls.

(** *** What the scan view renders

    The three conditionals of the scan view, in source order. *)

Definition upload_rendered (st : State) : bool :=
  negb (analyzing st) && negb (bool_decide (is_Some (results st))).

Definition error_rendered (st : State) : bool :=
  upload_rendered st && truthy_opt (error st).

Definition overlay_rendered (st : State) : bool := analyzing st.

Definition results_rendered (st : State) : bool :=
  bool_decide (is_Some (results st)) && negb (analyzing st) && truthy_opt (currentImage st).

Definition setCurrentView (v : View) (st : State) : State :=
  {| analyzing := analyzing st; results := results st; currentImage := currentImage st;
     error := error st; currentView := v; location := location st;
     showSplash := showSplash st |}.

(** [ImageUpload] is part of the tree only past the splash screen, in the
    scan view, while the upload pane is rendered; the navigation bar stays
    available and takes it out of the tree by changing the view. *)
Definition image_upload_mounted (st : State) : bool :=
  negb (showSplash st)
  && match currentView st with scan => true | _ => false end
  && upload_rendered st.

End App.

(* ===================================================================== *)
(** ** The canvas 2D context                                             *)
(* ===================================================================== *)

(** Modelled after the HTML canvas specification, for the calls that
    [capturePhoto] makes: [translate], [scale] and the five-argument
    [drawImage].  The current transformation matrix stays axis-aligned
    (device x = a * x + e, device y = d * y + f) and has integer entries;
    [drawImage] samples the source at the centre of each device pixel,
    without smoothing. *)
Module Canvas.

(** A packed RGBA sample. *)
Definition pixel : Type := Z.

Record Matrix : Type := {
  m_a : Z;
  m_d : Z;
  m_e : Z;
  m_f : Z
}.

Definition identity : Matrix := {| m_a := 1; m_d := 1; m_e := 0; m_f := 0 |}.

(** A canvas element: its size and its bitmap, row by row; [None] is a
    pixel nothing was drawn on. *)
Record Canvas : Type := {
  width : nat;
  height : nat;
  bitmap : list (list (option pixel))
}.

(** [document.createElement('canvas')] followed by the two size
    assignments, which leave the bitmap blank. *)
Definition createCanvas (w h : nat) : Canvas :=
  {| width := w; height := h; bitmap := replicate h (replicate w None) |}.

(** [canvas.getContext('2d')]: the context draws on its canvas through the
    current transformation matrix. *)
Record Context2D : Type := {
  ctm : Matrix;
  target : Canvas
}.

Definition getContext (c : Canvas) : Context2D := {| ctm := identity; target := c |}.

(** [ctx.translate(tx, ty)]: the matrix is multiplied on the right by the
    translation. *)
Definition translate (tx ty : Z) (ctx : Context2D) : Context2D :=
  let m := ctm ctx in
  {| ctm := {| m_a := m_a m; m_d := m_d m;
               m_e := (m_e m + m_a m * tx)%Z; m_f := (m_f m + m_d m * ty)%Z |};
     target := target ctx |}.

(** [ctx.scale(sx, sy)], likewise. *)
Definition scale (sx sy : Z) (ctx : Context2D) : Context2D :=
  let m := ctm ctx in
  {| ctm := {| m_a := (m_a m * sx)%Z; m_d := (m_d m * sy)%Z; m_e := m_e m; m_f := m_f m |};
     target := target ctx |}.

(** Along one axis: the source index seen at the centre of device pixel
    [X], for a source of [slen] samples drawn over [dlen] user units from
    [dpos].  The centre [X + 1/2] is [a * u + e] in user space, and the
    source coordinate is [(u - dpos) * slen / dlen]; both divisions are
    done at once, rounding down. *)
Definition sample_axis (a e dpos dlen : Z) (slen X : nat) : option nat :=
  let den := (2 * a * dlen)%Z in
  let num := ((2 * Z.of_nat X + 1 - 2 * e - 2 * a * dpos) * Z.of_nat slen)%Z in
  if (den =? 0)%Z then None
  else
    let i := (num / den)%Z in
    if ((0 <=? i) && (i <? Z.of_nat slen))%Z then Some (Z.to_nat i) else None.

(** [ctx.drawImage(image, dx, dy, dw, dh)] for an opaque source. *)
Definition drawImage (image : list (list pixel)) (sw sh : nat) (dx dy dw dh : Z)
    (ctx : Context2D) : Context2D :=
  let m := ctm ctx in
  let c := target ctx in
  let paint (Y X : nat) (old : option pixel) : option pixel :=
    match sample_axis (m_a m) (m_e m) dx dw sw X, sample_axis (m_d m) (m_f m) dy dh sh Y with
    | Some x, Some y =>
        match image !! y with
        | Some row =>
            match row !! x with
            | Some p => Some p
            | None => old
            end
        | None => old
        end
    | _, _ => old
    end in
  {| ctm := m;
     target := {| width := width c; height := height c;
                  bitmap := imap (fun Y row => imap (paint Y) row) (bitmap c) |} |}.

(** The frame as seen in a mirror: every row reversed. *)
Definition mirror (image : list (list pixel)) : list (list pixel) := reverse <$> image.

(** A bitmap fully covered by [image]. *)
Definition covered_by (image : list (list pixel)) : list (list (option pixel)) :=
  (fun row : list pixel => Some <$> row) <$> image.

End Canvas.

(* ===================================================================== *)
(** ** The image source component                                        *)
(* ===================================================================== *)

Module ImageUpload.
Import Canvas.

Inductive FacingMode : Type := environment | user.

Definition FacingMode_eqb (a b : FacingMode) : bool :=
  match a, b with
  | environment, environment => true
  | user, user => true
  | _, _ => false
  end.

(** A video track of a media stream: whether it is still live, what its
    capabilities say about [torch] (no such key, or its value) and the
    current [torch] setting. *)
Record Track : Type := {
  live : bool;
  torch_capability : option bool;
  torch_setting : bool
}.

(** The [<video>] element behind [videoRef]. *)
Record Video : Type := {
  readyState : nat;
  videoWidth : nat;
  videoHeight : nat;
  frame : list (list pixel);
  srcObject : option nat;
  onloadedmetadata : option nat
}.

Definition HAVE_METADATA : nat := 1.

(** The six [useState] cells. *)
Record State : Type := {
  showCamera : bool;
  stream : option nat;
  facingMode : FacingMode;
  isCameraLoading : bool;
  isTorchSupported : bool;
  isTorchOn : bool
}.

Definition initial : State :=
  {| showCamera := false; stream := None; facingMode := environment;
     isCameraLoading := false; isTorchSupported := false; isTorchOn := false |}.

Definition setShowCamera (b : bool) (st : State) : State :=
  {| showCamera := b; stream := stream st; facingMode := facingMode st;
     isCameraLoading := isCameraLoading st; isTorchSupported := isTorchSupported st;
     isTorchOn := isTorchOn st |}.

Definition setStream (o : option nat) (st : State) : State :=
  {| showCamera := showCamera st; stream := o; facingMode := facingMode st;
     isCameraLoading := isCameraLoading st; isTorchSupported := isTorchSupported st;
     isTorchOn := isTorchOn st |}.

Definition setFacingMode (m : FacingMode) (st : State) : State :=
  {| showCamera := showCamera st; stream := stream st; facingMode := m;
     isCameraLoading := isCameraLoading st; isTorchSupported := isTorchSupported st;
     isTorchOn := isTorchOn st |}.

Definition setIsCameraLoading (b : bool) (st : State) : State :=
  {| showCamera := showCamera st; stream := stream st; facingMode := facingMode st;
     isCameraLoading := b; isTorchSupported := isTorchSupported st;
     isTorchOn := isTorchOn st |}.

Definition setIsTorchSupported (b : bool) (st : State) : State :=
  {| showCamera := showCamera st; stream := stream st; facingMode := facingMode st;
     isCameraLoading := isCameraLoading st; isTorchSupported := b;
     isTorchOn := isTorchOn st |}.

Definition setIsTorchOn (b : bool) (st : State) : State :=
  {| showCamera := showCamera st; stream := stream st; facingMode := facingMode st;
     isCameraLoading := isCameraLoading st; isTorchSupported := isTorchSupported st;
     isTorchOn := b |}.

(** What the component does to the outside: [alert(msg)] and
    [onImageSelected(imageData)]. *)
Inductive Effect : Type :=
| Alert (msg : string)
| ImageSelected (imageData : string + App.File).

(** One run of the [useEffect] body: the values it closed over, its local
    [currentStream], and whether its [getUserMedia] call is still pending. *)
Record Closure : Type := {
  owner : nat;
  dep_showCamera : bool;
  dep_facingMode : FacingMode;
  seen_stream : option nat;
  videoElement : option nat;
  currentStream : option nat;
  awaiting : bool
}.

(** The component instance together with what it shares with the host:
    media streams (a stream is its list of video tracks, its identifier its
    position), [<video>] elements, effect closures, and the effects emitted
    so far. *)
Record Sys : Type := {
  mounted : bool;
  instance : nat;
  state : State;
  videoRef : option nat;
  videos : list Video;
  streams : list (list Track);
  closures : list Closure;
  effect : option nat;
  log : list Effect
}.

Definition boot : Sys :=
  {| mounted := false; instance := 0; state := initial; videoRef := None; videos := [];
     streams := []; closures := []; effect := None; log := [] |}.

Definition with_state (st : State) (s : Sys) : Sys :=
  {| mounted := mounted s; instance := instance s; state := st; videoRef := videoRef s;
     videos := videos s; streams := streams s; closures := closures s;
     effect := effect s; log := log s |}.

Definition with_videoRef (r : option nat) (s : Sys) : Sys :=
  {| mounted := mounted s; instance := instance s; state := state s; videoRef := r;
     videos := videos s; streams := streams s; closures := closures s;
     effect := effect s; log := log s |}.

Definition with_videos (vs : list Video) (s : Sys) : Sys :=
  {| mounted := mounted s; instance := instance s; state := state s; videoRef := videoRef s;
     videos := vs; streams := streams s; closures := closures s;
     effect := effect s; log := log s |}.

Definition with_streams (ss : list (list Track)) (s : Sys) : Sys :=
  {| mounted := mounted s; instance := instance s; state := state s; videoRef := videoRef s;
     videos := videos s; streams := ss; closures := closures s;
     effect := effect s; log := log s |}.

Definition with_closures (cs : list Closure) (s : Sys) : Sys :=
  {| mounted := mounted s; instance := instance s; state := state s; videoRef := videoRef s;
     videos := videos s; streams := streams s; closures := cs;
     effect := effect s; log := log s |}.

Definition with_effect (e : option nat) (s : Sys) : Sys :=
  {| mounted := mounted s; instance := instance s; state := state s; videoRef := videoRef s;
     videos := videos s; streams := streams s; closures := closures s;
     effect := e; log := log s |}.

Definition emit (e : Effect) (s : Sys) : Sys :=
  {| mounted := mounted s; instance := instance s; state := state s; videoRef := videoRef s;
     videos := videos s; streams := streams s; closures := closures s;
     effect := effect s; log := log s ++ [e] |}.

(** A state setter called from a closure of instance [i]: it acts on the
    mounted instance it belongs to and is ignored once that instance is
    gone. *)
Definition set_state (i : nat) (f : State -> State) (s : Sys) : Sys :=
  if mounted s && Nat.eqb i (instance s) then with_state (f (state s)) s else s.

(** [stream.getTracks().forEach(track => track.stop())] *)
Definition stop (tr : Track) : Track :=
  {| live := false; torch_capability := torch_capability tr; torch_setting := torch_setting tr |}.

Definition stop_tracks (sid : nat) (s : Sys) : Sys :=
  with_streams (alter (map stop) sid (streams s)) s.

Definition stop_tracks_opt (o : option nat) (s : Sys) : Sys :=
  match o with
  | Some sid => stop_tracks sid s
  | None => s
  end.

(** A stream is active while one of its tracks is live. *)
Definition active (tracks : list Track) : bool := existsb live tracks.

Definition active_streams (s : Sys) : list nat :=
  omap (fun p : nat * list Track => if active (snd p) then Some (fst p) else None)
       (imap pair (streams s)).

(** *** The camera effect

    [useEffect(() => { ... }, [showCamera, facingMode])], cut at its
    [await]s.  [eid] names the run of the effect, [c] is its closure. *)

Definition new_track (cap : option bool) : Track :=
  {| live := true; torch_capability := cap; torch_setting := false |}.

Definition set_awaiting (b : bool) (c : Closure) : Closure :=
  {| owner := owner c; dep_showCamera := dep_showCamera c; dep_facingMode := dep_facingMode c;
     seen_stream := seen_stream c; videoElement := videoElement c;
     currentStream := currentStream c; awaiting := b |}.

Definition set_currentStream (o : option nat) (c : Closure) : Closure :=
  {| owner := owner c; dep_showCamera := dep_showCamera c; dep_facingMode := dep_facingMode c;
     seen_stream := seen_stream c; videoElement := videoElement c;
     currentStream := o; awaiting := awaiting c |}.

Definition attach (sid eid : nat) (v : Video) : Video :=
  {| readyState := readyState v; videoWidth := videoWidth v; videoHeight := videoHeight v;
     frame := frame v; srcObject := Some sid; onloadedmetadata := Some eid |}.

Definition detach (v : Video) : Video :=
  {| readyState := readyState v; videoWidth := videoWidth v; videoHeight := videoHeight v;
     frame := frame v; srcObject := None; onloadedmetadata := None |}.

Definition on_video (o : option nat) (f : Video -> Video) (s : Sys) : Sys :=
  match o with
  | Some vid => with_videos (alter f vid (videos s)) s
  | None => s
  end.

(** [setupStream] up to [await navigator.mediaDevices.getUserMedia(...)]. *)
Definition setupStream_start (eid : nat) (c : Closure) (s : Sys) : Sys :=
  if negb (dep_showCamera c) || negb (bool_decide (is_Some (videoElement c))) then s
  else
    let s := set_state (owner c) (setIsCameraLoading true) s in
    let s :=
      match seen_stream c with
      | Some sid => set_state (owner c) (setStream None) (stop_tracks sid s)
      | None => s
      end in
    with_closures (alter (set_awaiting true) eid (closures s)) s.

(** The [catch] of [setupStream]. *)
Definition setupStream_catch (c : Closure) (s : Sys) : Sys :=
  let s := emit (Alert "Unable to access camera. Please make sure you have granted camera permissions.") s in
  let s := set_state (owner c) (setShowCamera false) s in
  set_state (owner c) (setIsCameraLoading false) s.

(** [setupStream] resumed with the stream [getUserMedia] resolved to, up to
    [await videoElement.play()].  The stream gets the next free identifier. *)
Definition setupStream_granted (eid : nat) (c : Closure) (caps : list (option bool))
    (s : Sys) : Sys :=
  let sid := length (streams s) in
  let tracks := map new_track caps in
  let s := with_streams (streams s ++ [tracks]) s in
  let s := with_closures
             (alter (fun c => set_currentStream (Some sid) (set_awaiting false c)) eid
                    (closures s)) s in
  match tracks with
  | track :: _ =>
      let s := set_state (owner c)
                 (setIsTorchSupported (bool_decide (is_Some (torch_capability track)))) s in
      let s := set_state (owner c) (setStream (Some sid)) s in
      on_video (videoElement c) (attach sid eid) s
  | [] => setupStream_catch c s
  end.

(** [setupStream] resumed with the rejection of [getUserMedia]. *)
Definition setupStream_denied (eid : nat) (c : Closure) (s : Sys) : Sys :=
  let s := with_closures (alter (set_awaiting false) eid (closures s)) s in
  setupStream_catch c s.

(** [setupStream] resumed after [await videoElement.play()]: a rejection is
    only logged. *)
Definition setupStream_played (c : Closure) (ok : bool) (s : Sys) : Sys :=
  if ok then set_state (owner c) (setIsCameraLoading false) s else s.

(** The [onloadedmetadata] handler resumed after
    [await videoRef.current.play()]: both branches clear the flag. *)
Definition onloadedmetadata_played (c : Closure) (ok : bool) (s : Sys) : Sys :=
  if ok then set_state (owner c) (setIsCameraLoading false) s
  else set_state (owner c) (setIsCameraLoading false) s.

(** The function the effect returns. *)
Definition cleanup (c : Closure) (s : Sys) : Sys :=
  let s := set_state (owner c) (setIsCameraLoading false) s in
  let s := stop_tracks_opt (currentStream c) s in
  let s := on_video (videoElement c) detach s in
  set_state (owner c)
    (fun st => if bool_decide (stream st = currentStream c) then setStream None st else st) s.

(** *** Handlers *)

Definition handleFile (file : App.File) (s : Sys) : Sys :=
  if String.prefix "image/" (App.file_type file)
  then emit (ImageSelected (inr file)) s
  else emit (Alert "Please upload an image file") s.

Definition handleStartCameraClick (s : Sys) : Sys :=
  let s := set_state (instance s) (setFacingMode environment) s in
  set_state (instance s) (setShowCamera true) s.

Definition stopCamera (s : Sys) : Sys :=
  set_state (instance s) (setShowCamera false) s.

Definition flip (m : FacingMode) : FacingMode :=
  match m with
  | environment => user
  | user => environment
  end.

Definition toggleCamera (s : Sys) : Sys :=
  set_state (instance s) (fun st => setFacingMode (flip (facingMode st)) st) s.

Definition set_torch (b : bool) (tr : Track) : Track :=
  {| live := live tr; torch_capability := torch_capability tr; torch_setting := b |}.

(** [apply_ok] tells whether [track.applyConstraints] resolves. *)
Definition toggleTorch (apply_ok : bool) (s : Sys) : Sys :=
  match stream (state s) with
  | Some sid =>
      match streams s !! sid with
      | Some (track :: rest) =>
          if bool_decide (torch_capability track = Some true) then
            if apply_ok then
              let s := with_streams
                         (<[sid := set_torch (negb (torch_setting track)) track :: rest]>
                            (streams s)) s in
              set_state (instance s) (fun st => setIsTorchOn (negb (isTorchOn st)) st) s
            else emit (Alert "Unable to toggle torch.") s
          else emit (Alert "Torch is not supported.") s
      | _ => emit (Alert "Torch is not supported.") s
      end
  | None => s
  end.

(** The canvas [capturePhoto] builds from the video [v] once it has a 2D
    context. *)
Definition capture_canvas (mode : FacingMode) (v : Video) : Canvas :=
  let canvas := createCanvas (videoWidth v) (videoHeight v) in
  let ctx := getContext canvas in
  let ctx :=
    match mode with
    | user => scale (-1) 1 (translate (Z.of_nat (width canvas)) 0 ctx)
    | environment => ctx
    end in
  let ctx := drawImage (frame v) (videoWidth v) (videoHeight v)
               0 0 (Z.of_nat (width canvas)) (Z.of_nat (height canvas)) ctx in
  target ctx.

(** [videoRef.current] *)
Definition current_video (s : Sys) : option Video :=
  videoRef s ≫= (fun vid => videos s !! vid).

(** [toDataURL] is the host's encoder; [ctx_ok] tells whether
    [canvas.getContext('2d')] returns a context. *)
Definition capturePhoto (toDataURL : string -> Canvas -> string) (ctx_ok : bool)
    (s : Sys) : Sys :=
  match current_video s with
  | Some v =>
      if Nat.ltb (readyState v) HAVE_METADATA then
        emit (Alert "Camera is not ready yet. Please wait a moment.") s
      else if Nat.eqb (videoWidth v) 0 || Nat.eqb (videoHeight v) 0 then
        emit (Alert "Camera is not ready yet, please wait a moment and try again.") s
      else if ctx_ok then
        let imageData := toDataURL "image/jpeg" (capture_canvas (facingMode (state s)) v) in
        stopCamera (emit (ImageSelected (inl imageData)) s)
      else emit (Alert "Failed to capture photo. Could not process image.") s
  | None => emit (Alert "Failed to capture photo. Camera not available.") s
  end.

(** *** Rendering and the effect schedule *)

Definition blank_video : Video :=
  {| readyState := 0; videoWidth := 0; videoHeight := 0; frame := [];
     srcObject := None; onloadedmetadata := None |}.

(** The [<video>] element exists exactly while [showCamera] holds. *)
Definition render_video (s : Sys) : Sys :=
  if showCamera (state s) then
    match videoRef s with
    | Some _ => s
    | None => with_videoRef (Some (length (videos s))) (with_videos (videos s ++ [blank_video]) s)
    end
  else with_videoRef None s.

(** A fresh run of the effect, closing over the rendered state [st]. *)
Definition run_effect (st : State) (s : Sys) : Sys :=
  let eid := length (closures s) in
  let c := {| owner := instance s; dep_showCamera := showCamera st;
              dep_facingMode := facingMode st; seen_stream := stream st;
              videoElement := videoRef s; currentStream := None; awaiting := false |} in
  let s := with_effect (Some eid) (with_closures (closures s ++ [c]) s) in
  setupStream_start eid c s.

Definition same_deps (c : Closure) (st : State) : bool :=
  Bool.eqb (dep_showCamera c) (showCamera st)
  && FacingMode_eqb (dep_facingMode c) (facingMode st).

(** After a handler: render, and if a dependency changed run the previous
    cleanup and then the effect again. *)
Definition commit (s : Sys) : Sys :=
  if mounted s then
    let s := render_video s in
    let st := state s in
    match effect s ≫= (fun eid => closures s !! eid) with
    | Some c => if same_deps c st then s else run_effect st (cleanup c s)
    | None => run_effect st s
    end
  else s.

Definition mount (s : Sys) : Sys :=
  let s := {| mounted := true; instance := S (instance s); state := initial;
              videoRef := None; videos := videos s; streams := streams s;
              closures := closures s; effect := None; log := log s |} in
  commit s.

Definition unmount (s : Sys) : Sys :=
  let s :=
    match effect s ≫= (fun eid => closures s !! eid) with
    | Some c => cleanup c s
    | None => s
    end in
  {| mounted := false; instance := instance s; state := state s; videoRef := None;
     videos := videos s; streams := streams s; closures := closures s;
     effect := None; log := log s |}.

(** The two groups of controls: the start button and the file input while
    the camera view is closed; switch, torch, capture and close while it is
    open, all disabled during loading. *)
Definition closed_controls (s : Sys) : bool :=
  mounted s && negb (showCamera (state s)).

Definition camera_controls (s : Sys) : bool :=
  mounted s && showCamera (state s) && negb (isCameraLoading (state s)).

Definition set_picture (rs w h : nat) (fr : list (list pixel)) (v : Video) : Video :=
  {| readyState := rs; videoWidth := w; videoHeight := h; frame := fr;
     srcObject := srcObject v; onloadedmetadata := onloadedmetadata v |}.

Inductive Event : Type :=
| Mount
| Unmount
| ClickTakePhoto
| FileChosen (file : App.File)
| ClickSwitch
| ClickTorch (apply_ok : bool)
| ClickCapture (ctx_ok : bool)
| ClickClose
| Granted (eid : nat) (caps : list (option bool))
| Denied (eid : nat)
| Played (eid : nat) (ok : bool)
| MetadataPlayed (eid : nat) (ok : bool)
| Picture (vid rs w h : nat) (fr : list (list pixel)).

(** A continuation of effect run [eid] may resume while its [getUserMedia]
    call is pending ([Granted], [Denied]) or once it has its stream (the two
    [play] promises). *)
Definition pending (eid : nat) (s : Sys) : option Closure :=
  match closures s !! eid with
  | Some c => if awaiting c then Some c else None
  | None => None
  end.

Definition streaming (eid : nat) (s : Sys) : option Closure :=
  match closures s !! eid with
  | Some c => if bool_decide (is_Some (currentStream c)) then Some c else None
  | None => None
  end.

Definition step (toDataURL : string -> Canvas -> string) (s : Sys) (ev : Event) : Sys :=
  match ev with
  | Mount => if mounted s then s else mount s
  | Unmount => if mounted s then unmount s else s
  | ClickTakePhoto => if closed_controls s then commit (handleStartCameraClick s) else s
  | FileChosen file => if closed_controls s then commit (handleFile file s) else s
  | ClickSwitch => if camera_controls s then commit (toggleCamera s) else s
  | ClickTorch apply_ok => if camera_controls s then commit (toggleTorch apply_ok s) else s
  | ClickCapture ctx_ok =>
      if camera_controls s then commit (capturePhoto toDataURL ctx_ok s) else s
  | ClickClose => if camera_controls s then commit (stopCamera s) else s
  | Granted eid caps =>
      match pending eid s with
      | Some c => commit (setupStream_granted eid c caps s)
      | None => s
      end
  | Denied eid =>
      match pending eid s with
      | Some c => commit (setupStream_denied eid c s)
      | None => s
      end
  | Played eid ok =>
      match streaming eid s with
      | Some c => commit (setupStream_played c ok s)
      | None => s
      end
  | MetadataPlayed eid ok =>
      match streaming eid s with
      | Some c => commit (onloadedmetadata_played c ok s)
      | None => s
      end
  | Picture vid rs w h fr => with_videos (alter (set_picture rs w h fr) vid (videos s)) s
  end.

Definition run (toDataURL : string -> Canvas -> string) (s : Sys) (evs : list Event) : Sys :=
  fold_left (step toDataURL) evs s.

(** The invariant of the data model: at most one active stream. *)
Definition at_most_one_active (s : Sys) : Prop := length (active_streams s) <= 1.

(** The picture of a video has the size the element reports. *)
Definition frame_ok (v : Video) : Prop :=
  length (frame v) = videoHeight v
  /\ Forall (fun row => length row = videoWidth v) (frame v).

(** The checks [capturePhoto] makes before it touches the canvas. *)
Definition ready (v : Video) : bool :=
  negb (Nat.ltb (readyState v) HAVE_METADATA)
  && negb (Nat.eqb (videoWidth v) 0 || Nat.eqb (videoHeight v) 0).

End ImageUpload.

(* ===================================================================== *)
(** ** The history view's loader                                         *)
(* ===================================================================== *)

Module HistoryView.
Import App.

(** Modelled from the spec: [loadAll], the loader of the history view
    ([./components/History], whose source is not part of this development).
    The spec: "returns the persisted list, or an empty list if none exists
    or the stored value is not well-formed (treated as no history, not a
    fatal error)". *)
Definition loadAll (J : json_codec) (ls : gmap string string) : list js_value :=
  match getItem history_key ls with
  | Some s =>
      match JSON_parse J s with
      | Normal (JArr items) => items
      | _ => []
      end
  | None => []
  end.

End HistoryView.

(* ===================================================================== *)
(** ** A reference codec                                                 *)
(* ===================================================================== *)

(** A small self-delimiting text format for [js_value] with a printer and
    a parser.  It is not JSON; it shows that the laws asked of the host
    codec can be met, and gives the theorems below something to run on. *)
Module RefCodec.

Fixpoint print_pos (p : positive) : string :=
  match p with
  | xH => "."
  | xO q => String "0" (print_pos q)
  | xI q => String "1" (print_pos q)
  end.

Definition print_Z (z : Z) : string :=
  match z with
  | Z0 => "z"
  | Zpos p => String "p" (print_pos p)
  | Zneg p => String "m" (print_pos p)
  end.

Fixpoint print_str (s : string) : string :=
  match s with
  | EmptyString => "."
  | String c r => String ":" (String c (print_str r))
  end.

Fixpoint print (v : js_value) : string :=
  match v with
  | JNull => "n"
  | JBool true => "t"
  | JBool false => "f"
  | JNum z => String "#" (print_Z z)
  | JStr s => String "'" (print_str s)
  | JArr items =>
      String "["
        ((fix print_items (l : list js_value) : string :=
            match l with
            | [] => "]"
            | x :: r => String "," (print x +:+ print_items r)
            end) items)
  | JObj fields =>
      String "{"
        ((fix print_fields (l : list (string * js_value)) : string :=
            match l with
            | [] => "}"
            | (k, x) :: r => String ";" (print_str k +:+ print x +:+ print_fields r)
            end) fields)
  end.

Fixpoint print_items (l : list js_value) : string :=
  match l with
  | [] => "]"
  | x :: r => String "," (print x +:+ print_items r)
  end.

Fixpoint print_fields (l : list (string * js_value)) : string :=
  match l with
  | [] => "}"
  | (k, x) :: r => String ";" (print_str k +:+ print x +:+ print_fields r)
  end.

Fixpoint read_pos (s : string) : option (positive * string) :=
  match s with
  | String "." r => Some (xH, r)
  | String "0" r =>
      match read_pos r with Some (q, r') => Some (xO q, r') | None => None end
  | String "1" r =>
      match read_pos r with Some (q, r') => Some (xI q, r') | None => None end
  | _ => None
  end.

Definition read_Z (s : string) : option (Z * string) :=
  match s with
  | String "z" r => Some (Z0, r)
  | String "p" r =>
      match read_pos r with Some (q, r') => Some (Zpos q, r') | None => None end
  | String "m" r =>
      match read_pos r with Some (q, r') => Some (Zneg q, r') | None => None end
  | _ => None
  end.

Fixpoint read_str (s : string) : option (string * string) :=
  match s with
  | String "." r => Some (EmptyString, r)
  | String ":" (String c r) =>
      match read_str r with Some (k, r') => Some (String c k, r') | None => None end
  | _ => None
  end.

(** The parser proper; [n] bounds the number of nested calls. *)
Fixpoint read (n : nat) (s : string) : option (js_value * string) :=
  match n with
  | O => None
  | S n =>
      match s with
      | String "n" r => Some (JNull, r)
      | String "t" r => Some (JBool true, r)
      | String "f" r => Some (JBool false, r)
      | String "#" r =>
          match read_Z r with Some (z, r') => Some (JNum z, r') | None => None end
      | String "'" r =>
          match read_str r with Some (k, r') => Some (JStr k, r') | None => None end
      | String "[" r =>
          match read_items n r with Some (l, r') => Some (JArr l, r') | None => None end
      | String "{" r =>
          match read_fields n r with Some (l, r') => Some (JObj l, r') | None => None end
      | _ => None
      end
  end
with read_items (n : nat) (s : string) : option (list js_value * string) :=
  match n with
  | O => None
  | S n =>
      match s with
      | String "]" r => Some ([], r)
      | String "," r =>
          match read n r with
          | Some (x, r1) =>
              match read_items n r1 with
              | Some (l, r2) => Some (x :: l, r2)
              | None => None
              end
          | None => None
          end
      | _ => None
      end
  end
with read_fields (n : nat) (s : string) : option (list (string * js_value) * string) :=
  match n with
  | O => None
  | S n =>
      match s with
      | String "}" r => Some ([], r)
      | String ";" r =>
          match read_str r with
          | Some (k, r0) =>
              match read n r0 with
              | Some (x, r1) =>
                  match read_fields n r1 with
                  | Some (l, r2) => Some ((k, x) :: l, r2)
                  | None => None
                  end
              | None => None
              end
          | None => None
          end
      | _ => None
      end
  end.

Definition parse (s : string) : completion js_value :=
  match read (S (String.length s)) s with
  | Some (v, EmptyString) => Normal v
  | _ => Throw SyntaxError
  end.

Definition codec : json_codec :=
  {| JSON_parse := parse; JSON_stringify := print |}.

(** Reading what was printed gives the value back and leaves the rest of
    the text, whenever the bound covers the printed length. *)
Definition reads_back (v : js_value) : Prop :=
  forall rest n, String.length (print v) <= n -> read n (print v +:+ rest) = Some (v, rest).

End RefCodec.

(* ===================================================================== *)
(** ** Sample data                                                       *)
(* ===================================================================== *)

Module Sample.
Import App.

Definition blight : AnalysisResults :=
  {| crop_name := "Tomato";
     disease_detected := true;
     disease_name := "Late blight";
     confidence_percentage := 92;
     danger_level := 70;
     symptoms := ["Dark lesions on leaves"];
     treatments := ["Remove infected leaves"; "Apply fungicide"];
     prevention_tips := ["Avoid overhead watering"];
     disease_description := "A water mould infection" |}.

(** The [n]-th scan of a session: its identifier and its image carry [n]. *)
Definition scan_no (n : nat) : Scan :=
  {| scan_stamp := {| uuid := String (ascii_of_nat (48 + n)) "-uuid"; now := "11/1/2026, 10:00:00 AM" |};
     scan_image := String (ascii_of_nat (48 + n)) ".jpeg";
     scan_results := blight |}.

Definition scans_upto (n : nat) : list Scan := map scan_no (seq 0 n).

(** A storage with room for everything. *)
Definition roomy : Quota := fun _ _ _ => true.

(** A storage with room for [n] characters, keys and values together. *)
Definition size (ls : gmap string string) : nat :=
  map_fold (fun k v acc => String.length k + String.length v + acc) 0 ls.

Definition capacity (n : nat) : Quota :=
  fun k v ls => Nat.leb (size (<[k := v]> ls)) n.

(** A host whose analysis client answers with [blight]. *)
Definition host_ok : Host :=
  {| t := fun key => key;
     readAsDataURL := fun f => "data:" +:+ file_type f +:+ ";base64,AAAA";
     analyzeImage := fun _ _ _ => Normal blight;
     stamp := {| uuid := "u-1"; now := "11/1/2026, 10:00:00 AM" |};
     quota := roomy |}.

(** A host whose analysis client fails. *)
Definition host_failing : Host :=
  {| t := fun key => key;
     readAsDataURL := fun f => "data:" +:+ file_type f +:+ ";base64,AAAA";
     analyzeImage := fun _ _ _ => Throw TypeError;
     stamp := {| uuid := "u-1"; now := "11/1/2026, 10:00:00 AM" |};
     quota := roomy |}.

(** A host like [host_ok] whose storage has room for 1000 characters. *)
Definition host_tight : Host :=
  {| t := t host_ok; readAsDataURL := readAsDataURL host_ok;
     analyzeImage := analyzeImage host_ok; stamp := stamp host_ok;
     quota := capacity 1000 |}.

(** The scan view at rest: nothing analysed yet. *)
Definition idle : State :=
  {| analyzing := false; results := None; currentImage := None; error := None;
     currentView := scan; location := None; showSplash := false |}.

(** A persisted value that is not JSON. *)
Definition garbled : gmap string string := {[ history_key := "<html>" ]}.

(** A persisted history of one scan. *)
Definition one_scan : gmap string string :=
  {[ history_key := RefCodec.print (JArr [entry (scan_no 0)]) ]}.

End Sample.

Module SampleCamera.
Import Canvas ImageUpload.

(** A stand-in for the host's image encoder. *)
Definition encode (mime : string) (c : Canvas) : string :=
  "data:" +:+ mime +:+ ";base64,AAAA".

(** A picture three pixels wide and two high. *)
Definition leaf : list (list pixel) := [[1; 2; 3]; [4; 5; 6]]%Z.

(** The rear camera is open and playing; its track has a torch.  The
    video element has not reported its picture yet. *)
Definition rear_live : Sys :=
  run encode boot [Mount; ClickTakePhoto; Granted 1 [Some true]; Played 1 true].

(** The same once the picture is there. *)
Definition rear_ready : Sys := step encode rear_live (Picture 0 4 3 2 leaf).

(** After switching to the front camera, whose track has no torch. *)
Definition front_ready : Sys :=
  run encode rear_live [ClickSwitch; Granted 2 [None]; Played 2 true; Picture 0 4 3 2 leaf].

(** The rear camera has been granted but nothing plays yet. *)
Definition rear_starting : Sys :=
  run encode boot [Mount; ClickTakePhoto; Granted 1 [Some true]].

Definition png : App.File := {| App.file_name := "leaf.png"; App.file_type := "image/png" |}.
Definition pdf : App.File := {| App.file_name := "notes.pdf"; App.file_type := "application/pdf" |}.

End SampleCamera.

(* ===================================================================== *)
(** ** The rest of the application shell                                 *)
(* ===================================================================== *)

Module AppControls.
Import App.

Definition setLocation (l : option Location) (st : State) : State :=
  {| analyzing := analyzing st; results := results st; currentImage := currentImage st;
     error := error st; currentView := currentView st; location := l;
     showSplash := showSplash st |}.

(** [handleLocationToggle]; [position] is how the one-shot
    [navigator.geolocation.getCurrentPosition] request settles (its
    [coords], or the error it rejects with). *)
Definition handleLocationToggle (enabled : bool) (position : completion Location)
    (st : State) : State :=
  if enabled then
    match position with
    | Normal p => setLocation (Some {| latitude := latitude p; longitude := longitude p |}) st
    | Throw _ => setLocation None st
    end
  else setLocation None st.

Definition handleReset (st : State) : State :=
  let st := setResults None st in
  let st := setCurrentImage None st in
  setError None st.

(** The host [h] with another analysis client. *)
Definition with_client
    (client : string -> string -> option Location -> completion AnalysisResults)
    (h : Host) : Host :=
  {| t := t h; readAsDataURL := readAsDataURL h; analyzeImage := client; stamp := stamp h;
     quota := quota h |}.

(** How many of the three panes of the scan view are rendered. *)
Definition panes (st : State) : nat :=
  (if upload_rendered st then 1 else 0)
  + (if overlay_rendered st then 1 else 0)
  + (if results_rendered st then 1 else 0).

End AppControls.

(* ===================================================================== *)
(** ** Properties of the camera component                                *)
(* ===================================================================== *)

Module CameraProps.
Import Canvas ImageUpload.

(** The [<video>] element is there exactly while the camera view is. *)
Definition video_in_step (s : Sys) : bool :=
  if showCamera (state s) then bool_decide (is_Some (videoRef s))
  else bool_decide (videoRef s = None).

(** What may be handed to [onImageSelected]: a file declared as an image,
    or a JPEG data URL made from a canvas. *)
Definition honest (toDataURL : string -> Canvas -> string) (e : Effect) : Prop :=
  match e with
  | Alert _ => True
  | ImageSelected (inr file) => String.prefix "image/" (App.file_type file) = true
  | ImageSelected (inl data) => exists c, data = toDataURL "image/jpeg" c
  end.

(** Between two lists of streams: every stream is still there under its
    identifier, with as many tracks, and no track that was stopped is live. *)
Definition never_revived (old new : list (list Track)) : Prop :=
  forall sid tracks, old !! sid = Some tracks ->
    exists tracks', new !! sid = Some tracks'
      /\ Forall2 (fun a b => live b = true -> live a = true) tracks tracks'.

End CameraProps.


(** Two more states of the camera component, reached from [boot]. *)
Module SampleSteps.
Import Canvas ImageUpload SampleCamera.

(** The view has just been opened: the request for the camera is pending. *)
Definition rear_opening : Sys := run encode boot [Mount; ClickTakePhoto].

(** The view has been closed while the front camera was in use. *)
Definition front_closed : Sys := step encode front_ready ClickClose.

End SampleSteps.

(* ===================================================================== *)
(** ** The reference codec meets the codec laws                          *)
(* ===================================================================== *)

Section RefCodecLaws.
Import RefCodec.

Lemma string_append_cons (c : ascii) (a b : string) :
  String c a +:+ b = String c (a +:+ b).
Proof. reflexivity. Qed.

Lemma string_length_append (a b : string) :
  String.length (a +:+ b) = String.length a + String.length b.
Proof.
  induction a as [|c a IH]; [reflexivity|].
  rewrite string_append_cons. cbn. now rewrite IH.
Qed.

Lemma string_append_assoc (a b c : string) : (a +:+ b) +:+ c = a +:+ (b +:+ c).
Proof.
  induction a as [|x a IH]; [reflexivity|].
  rewrite !string_append_cons. now rewrite IH.
Qed.

(** Induction on [js_value] that reaches inside arrays and objects. *)
Lemma js_value_nested_ind (P : js_value -> Prop) :
  P JNull ->
  (forall b, P (JBool b)) ->
  (forall n, P (JNum n)) ->
  (forall s, P (JStr s)) ->
  (forall items, Forall P items -> P (JArr items)) ->
  (forall fields, Forall (fun kv => P (snd kv)) fields -> P (JObj fields)) ->
  forall v, P v.
Proof.
  intros HNull HBool HNum HStr HArr HObj.
  fix IH 1. intros [ | b | n | s | items | fields ].
  - exact HNull.
  - apply HBool.
  - apply HNum.
  - apply HStr.
  - apply HArr. induction items as [|x items IHitems]; constructor; [apply IH | exact IHitems].
  - apply HObj. induction fields as [|[k x] fields IHfields]; constructor;
      [apply IH | exact IHfields].
Qed.

Lemma print_JArr (items : list js_value) :
  print (JArr items) = String "[" (print_items items).
Proof. reflexivity. Qed.

Lemma print_JObj (fields : list (string * js_value)) :
  print (JObj fields) = String "{" (print_fields fields).
Proof. reflexivity. Qed.

Lemma read_print_pos (p : positive) (rest : string) :
  read_pos (print_pos p +:+ rest) = Some (p, rest).
Proof.
  induction p as [p IH|p IH|]; cbn [print_pos]; rewrite string_append_cons; cbn [read_pos];
    [rewrite IH | rewrite IH |]; reflexivity.
Qed.

Lemma read_print_Z (z : Z) (rest : string) :
  read_Z (print_Z z +:+ rest) = Some (z, rest).
Proof.
  destruct z; cbn [print_Z]; rewrite string_append_cons; cbn [read_Z];
    [|rewrite read_print_pos..]; reflexivity.
Qed.

Lemma read_print_str (k rest : string) :
  read_str (print_str k +:+ rest) = Some (k, rest).
Proof.
  induction k as [|c k IH]; cbn [print_str]; rewrite !string_append_cons; cbn [read_str];
    [|rewrite IH]; reflexivity.
Qed.

Lemma read_print_items (items : list js_value) :
  Forall reads_back items ->
  forall rest n, String.length (print_items items) <= n ->
    read_items n (print_items items +:+ rest) = Some (items, rest).
Proof.
  induction 1 as [|x items Hx _ IH]; intros rest n Hn.
  - destruct n as [|n]; [cbn in Hn; lia | reflexivity].
  - destruct n as [|n]; [cbn in Hn; lia|].
    cbn [print_items String.length] in Hn. rewrite string_length_append in Hn.
    cbn [print_items]. rewrite string_append_cons. cbn [read_items].
    rewrite string_append_assoc.
    rewrite (Hx _ n) by lia. rewrite (IH rest n) by lia. reflexivity.
Qed.

Lemma read_print_fields (fields : list (string * js_value)) :
  Forall (fun kv => reads_back (snd kv)) fields ->
  forall rest n, String.length (print_fields fields) <= n ->
    read_fields n (print_fields fields +:+ rest) = Some (fields, rest).
Proof.
  induction 1 as [|[k x] fields Hx _ IH]; intros rest n Hn.
  - destruct n as [|n]; [cbn in Hn; lia | reflexivity].
  - destruct n as [|n]; [cbn in Hn; lia|].
    cbn [print_fields String.length] in Hn. rewrite !string_length_append in Hn.
    cbn [print_fields]. rewrite string_append_cons. cbn [read_fields].
    rewrite !string_append_assoc.
    rewrite read_print_str. cbn [snd] in Hx.
    rewrite (Hx _ n) by lia. rewrite (IH rest n) by lia. reflexivity.
Qed.

Lemma read_print (v : js_value) : reads_back v.
Proof.
  induction v as [ | b | z | k | items IH | fields IH ] using js_value_nested_ind;
    intros rest n Hn.
  - destruct n as [|n]; [cbn in Hn; lia | reflexivity].
  - destruct n as [|n]; [destruct b; cbn in Hn; lia | destruct b; reflexivity].
  - destruct n as [|n]; [cbn in Hn; lia|].
    cbn [print]. rewrite string_append_cons. cbn [read]. now rewrite read_print_Z.
  - destruct n as [|n]; [cbn in Hn; lia|].
    cbn [print]. rewrite string_append_cons. cbn [read]. now rewrite read_print_str.
  - rewrite print_JArr in Hn |- *.
    destruct n as [|n]; [cbn in Hn; lia|]. cbn [String.length] in Hn.
    rewrite string_append_cons. cbn [read].
    rewrite read_print_items by (assumption || lia). reflexivity.
  - rewrite print_JObj in Hn |- *.
    destruct n as [|n]; [cbn in Hn; lia|]. cbn [String.length] in Hn.
    rewrite string_append_cons. cbn [read].
    rewrite read_print_fields by (assumption || lia). reflexivity.
Qed.

Lemma string_append_empty (a : string) : a +:+ "" = a.
Proof.
  induction a as [|c a IH]; [reflexivity|].
  rewrite string_append_cons. now rewrite IH.
Qed.

Lemma parse_print (v : js_value) : parse (print v) = Normal v.
Proof.
  unfold parse.
  rewrite <- (string_append_empty (print v)) at 2.
  rewrite read_print by lia. reflexivity.
Qed.

Lemma print_truthy (v : js_value) : truthy (print v) = true.
Proof. destruct v as [ | [|] | | | | ]; reflexivity. Qed.

Lemma RefCodec_laws : App.codec_laws codec (fun _ => True).
Proof.
  split.
  - intros items _. apply parse_print.
  - intros s items _. apply Forall_forall. intros; exact I.
  - intros r. exact I.
  - intros v. apply print_truthy.
Qed.

End RefCodecLaws.

(* ===================================================================== *)
(** ** History store: cap and ordering                                   *)
(* ===================================================================== *)

Section History.
Import App HistoryView.
Variable J : json_codec.
Variable exact : js_value -> Prop.
Hypothesis laws : codec_laws J exact.



Lemma holds_history_setItem (ls : gmap string string) (items : list js_value) :
  Forall exact items ->
  holds_history J exact (<[history_key := JSON_stringify J (JArr items)]> ls) items.
Proof.
  intros Hex. split; [|exact Hex].
  unfold getItem. rewrite lookup_insert_eq. cbn.
  rewrite (stringify_truthy _ _ laws). now apply (parse_stringify _ _ laws).
Qed.

(** On a history that reads back, [saveToHistory] comes down to the one
    write of the capped list. *)
Lemma saveToHistory_holds (q : Quota) (e : Stamp) (img : string) (r : AnalysisResults)
    (ls : gmap string string) (items : list js_value) :
  holds_history J exact ls items ->
  let kept := take 50 (ScanResult_to_js (historyItem e img r) :: items) in
  saveToHistory J q e img r ls = setItem q history_key (JSON_stringify J (JArr kept)) ls
  /\ holds_history J exact (<[history_key := JSON_stringify J (JArr kept)]> ls) kept.
Proof.
  intros [Hread Hex] kept. split.
  - unfold saveToHistory. rewrite Hread. reflexivity.
  - apply holds_history_setItem. subst kept.
    apply Forall_take. constructor; [apply (item_exact _ _ laws) | exact Hex].
Qed.






(** C2 (amended).  An absent history is treated as the empty list by both
    operations, and so is an empty stored string by [saveToHistory]: the
    append is the write of the one-entry list.  A
    non-empty stored value that does not parse to an array is read as the
    empty list by [loadAll], but [saveToHistory] throws on it; inside
    [handleImageAnalysis] that exception is caught, the stored value is left
    as it was and the error message is set. *)
Theorem saveToHistory_absent_or_malformed (h : Host) (img : string) (r : AnalysisResults)
    (st : State) (ls : gmap string string) :
  let saved := getItem history_key ls in
  let item := ScanResult_to_js (historyItem (stamp h) img r) in
  (saved = None ->
     loadAll J ls = []
     /\ saveToHistory J (quota h) (stamp h) img r ls
         = setItem (quota h) history_key (JSON_stringify J (JArr [item])) ls)
  /\ (saved = Some "" ->
     saveToHistory J (quota h) (stamp h) img r ls
       = setItem (quota h) history_key (JSON_stringify J (JArr [item])) ls)
  /\ (forall s, saved = Some s -> truthy s = true ->
       (forall items, JSON_parse J s <> Normal (JArr items)) ->
     loadAll J ls = []
     /\ (exists err, saveToHistory J (quota h) (stamp h) img r ls = Throw err)
     /\ (analyzeImage h img (t h "language") (location st) = Normal r ->
         handleImageAnalysis_settle J h img st ls
           = (setAnalyzing false (setError (Some (t h "error.analysis")) (setResults (Some r) st)),
              ls))).
Proof.
  cbn zeta. split; [|split].
  - intros Hs. unfold loadAll, saveToHistory. rewrite Hs. split; reflexivity.
  - intros Hs. unfold saveToHistory. rewrite Hs. reflexivity.
  - intros s Hs Hne Hbad.
    assert (exists err, saveToHistory J (quota h) (stamp h) img r ls = Throw err) as [err Herr].
    { unfold saveToHistory. rewrite Hs. cbn. rewrite Hne.
      destruct (JSON_parse J s) as [[ | | | | items | ]|err] eqn:Hp; cbn; eauto.
      now destruct (Hbad items). }
    split; [|split].
    + unfold loadAll. rewrite Hs.
      destruct (JSON_parse J s) as [[ | | | | items | ]|err'] eqn:Hp; try reflexivity.
      now destruct (Hbad items).
    + eauto.
    + intros Hok. unfold handleImageAnalysis_settle. rewrite Hok. cbn.
      rewrite Herr. reflexivity.
Qed.


End History.

Section HistoryExamples.
Import App HistoryView.


(** The cap at work: 51 appends to an empty store leave 50 entries, the
    last one appended first and the very first one gone. *)
Example fifty_one_appends :
  match saveAll RefCodec.codec Sample.roomy (Sample.scans_upto 51) ∅ with
  | Normal ls =>
      length (loadAll RefCodec.codec ls) = 50
      /\ loadAll RefCodec.codec ls !! 0 = Some (entry (Sample.scan_no 50))
      /\ loadAll RefCodec.codec ls !! 49 = Some (entry (Sample.scan_no 1))
  | Throw _ => False
  end.
Proof. vm_compute. repeat split. Qed.


(** C2, as stated, fails: on a stored value that is not JSON the append does
    not proceed as if the history were empty, it throws. *)
Lemma saveToHistory_garbled_counterexample :
  getItem history_key Sample.garbled = Some "<html>"
  /\ JSON_parse RefCodec.codec "<html>" = Throw SyntaxError
  /\ saveToHistory RefCodec.codec Sample.roomy (stamp Sample.host_ok) "img" Sample.blight
       Sample.garbled
     = Throw SyntaxError
  /\ saveToHistory RefCodec.codec Sample.roomy (stamp Sample.host_ok) "img" Sample.blight ∅
     = Normal (<[history_key :=
                  JSON_stringify RefCodec.codec
                    (JArr [ScanResult_to_js
                             (historyItem (stamp Sample.host_ok) "img" Sample.blight)])]> ∅).
Proof. split; [|split; [|split]]; reflexivity. Qed.

Lemma saveToHistory_absent_or_malformed_witness :
  loadAll RefCodec.codec Sample.garbled = []
  /\ (exists err,
        saveToHistory RefCodec.codec (quota Sample.host_ok) (stamp Sample.host_ok) "img"
          Sample.blight Sample.garbled
          = Throw err)
  /\ handleImageAnalysis_settle RefCodec.codec Sample.host_ok "img" Sample.idle Sample.garbled
     = (setAnalyzing false
          (setError (Some "error.analysis") (setResults (Some Sample.blight) Sample.idle)),
        Sample.garbled).
Proof.
  destruct (saveToHistory_absent_or_malformed RefCodec.codec Sample.host_ok "img"
              Sample.blight Sample.idle Sample.garbled) as (_ & _ & Hbad).
  destruct (Hbad "<html>") as (Hload & Hthrow & Hcaught).
  - reflexivity.
  - reflexivity.
  - intros items. vm_compute. discriminate.
  - split; [exact Hload|]. split; [exact Hthrow|]. apply Hcaught. reflexivity.
Defined.



(** The same run on a storage with no room for a second entry: the result is
    on display, the error message is set without being rendered, and the
    history is as it was. *)
Example handleImageAnalysis_no_room :
  let st' := fst (handleImageAnalysis RefCodec.codec Sample.host_tight (inl "img")
                    Sample.idle Sample.one_scan) in
  snd (handleImageAnalysis RefCodec.codec Sample.host_tight (inl "img") Sample.idle
         Sample.one_scan) = Sample.one_scan
  /\ results st' = Some Sample.blight
  /\ error st' = Some "error.analysis"
  /\ error_rendered st' = false
  /\ results_rendered st' = true.
Proof.
  cbn zeta. split; [vm_compute; reflexivity|]. split; [vm_compute; reflexivity|].
  split; [vm_compute; reflexivity|]. split; vm_compute; reflexivity.
Qed.

(** Leaving the scan view takes [ImageUpload] out of the tree, whatever it
    is doing. *)
Example navigation_unmounts_ImageUpload :
  image_upload_mounted Sample.idle = true
  /\ image_upload_mounted (setCurrentView history Sample.idle) = false.
Proof. split; reflexivity. Qed.

(** The failing branch of the same run. *)
Example handleImageAnalysis_client_failure :
  handleImageAnalysis RefCodec.codec Sample.host_failing
    (inr {| file_name := "leaf.png"; file_type := "image/png" |}) Sample.idle ∅
  = ({| analyzing := false; results := None;
        currentImage := Some "data:image/png;base64,AAAA";
        error := Some "error.analysis"; currentView := scan; location := None;
        showSplash := false |}, ∅).
Proof. reflexivity. Qed.

End HistoryExamples.

(* ===================================================================== *)
(** ** Capture: what is drawn                                            *)
(* ===================================================================== *)

Section Drawing.
Import Canvas ImageUpload.

Lemma sample_axis_plain (w X : nat) :
  X < w -> sample_axis 1 0 0 (Z.of_nat w) w X = Some X.
Proof.
  intros HX. unfold sample_axis.
  destruct (Z.eqb_spec (2 * 1 * Z.of_nat w) 0) as [Hz|_]; [lia|].
  assert ((2 * Z.of_nat X + 1 - 2 * 0 - 2 * 1 * 0) * Z.of_nat w / (2 * 1 * Z.of_nat w)
          = Z.of_nat X)%Z as ->.
  { symmetry. apply Z.div_unique with (r := Z.of_nat w); [lia | nia]. }
  destruct (Z.leb_spec 0 (Z.of_nat X)); [|lia].
  destruct (Z.ltb_spec (Z.of_nat X) (Z.of_nat w)); [|lia].
  cbn. now rewrite Nat2Z.id.
Qed.

Lemma sample_axis_flipped (w X : nat) :
  X < w -> sample_axis (-1) (Z.of_nat w) 0 (Z.of_nat w) w X = Some (w - S X).
Proof.
  intros HX. unfold sample_axis.
  destruct (Z.eqb_spec (2 * -1 * Z.of_nat w) 0) as [Hz|_]; [lia|].
  assert ((2 * Z.of_nat X + 1 - 2 * Z.of_nat w - 2 * -1 * 0) * Z.of_nat w
            / (2 * -1 * Z.of_nat w)
          = Z.of_nat (w - S X))%Z as ->.
  { symmetry. apply Z.div_unique with (r := (- Z.of_nat w)%Z); [lia | nia]. }
  destruct (Z.leb_spec 0 (Z.of_nat (w - S X))); [|lia].
  destruct (Z.ltb_spec (Z.of_nat (w - S X)) (Z.of_nat w)); [|lia].
  cbn. now rewrite Nat2Z.id.
Qed.

Lemma frame_row (v : Video) (Y : nat) (row : list pixel) :
  frame_ok v -> frame v !! Y = Some row -> length row = videoWidth v.
Proof.
  intros [_ Hrows] Hrow. rewrite Forall_forall in Hrows.
  apply Hrows. apply list_elem_of_lookup. eauto.
Qed.

Lemma capture_canvas_environment (v : Video) :
  frame_ok v -> bitmap (capture_canvas environment v) = covered_by (frame v).
Proof.
  intros Hok. pose proof Hok as [Hh Hrows].
  unfold capture_canvas, covered_by. cbn.
  apply list_eq. intros Y.
  rewrite list_lookup_imap, list_lookup_fmap.
  destruct (decide (Y < videoHeight v)) as [HY|HY].
  - rewrite lookup_replicate_2 by exact HY.
    destruct (frame v !! Y) as [row|] eqn:Hrow;
      [|apply lookup_ge_None in Hrow; lia].
    cbn. f_equal. pose proof (frame_row v Y row Hok Hrow) as Hlen.
    apply list_eq. intros X.
    rewrite list_lookup_imap, list_lookup_fmap.
    destruct (decide (X < videoWidth v)) as [HX|HX].
    + rewrite lookup_replicate_2 by exact HX. cbn.
      rewrite (sample_axis_plain _ X HX), (sample_axis_plain _ Y HY), Hrow.
      destruct (row !! X) as [p|] eqn:Hp; [reflexivity|].
      apply lookup_ge_None in Hp. lia.
    + rewrite (proj1 (lookup_replicate_None _ _ _)) by lia.
      rewrite (proj2 (lookup_ge_None row X)) by lia. reflexivity.
  - rewrite (proj1 (lookup_replicate_None _ _ _)) by lia.
    rewrite (proj2 (lookup_ge_None (frame v) Y)) by lia. reflexivity.
Qed.

Lemma capture_canvas_user (v : Video) :
  frame_ok v -> bitmap (capture_canvas user v) = covered_by (mirror (frame v)).
Proof.
  intros Hok. pose proof Hok as [Hh Hrows].
  unfold capture_canvas, covered_by, mirror. cbn.
  change (1 * -1)%Z with (-1)%Z. change (1 * 1)%Z with 1%Z. change (0 + 1 * 0)%Z with 0%Z.
  replace (0 + 1 * Z.of_nat (videoWidth v))%Z with (Z.of_nat (videoWidth v)) by lia.
  apply list_eq. intros Y.
  rewrite list_lookup_imap, !list_lookup_fmap.
  destruct (decide (Y < videoHeight v)) as [HY|HY].
  - rewrite lookup_replicate_2 by exact HY.
    destruct (frame v !! Y) as [row|] eqn:Hrow;
      [|apply lookup_ge_None in Hrow; lia].
    cbn. f_equal. pose proof (frame_row v Y row Hok Hrow) as Hlen.
    apply list_eq. intros X.
    rewrite list_lookup_imap, list_lookup_fmap.
    destruct (decide (X < videoWidth v)) as [HX|HX].
    + rewrite lookup_replicate_2 by exact HX. cbn.
      rewrite (sample_axis_flipped _ X HX), (sample_axis_plain _ Y HY), Hrow.
      rewrite reverse_lookup by lia. rewrite Hlen.
      destruct (row !! (videoWidth v - S X)) as [p|] eqn:Hp; [reflexivity|].
      apply lookup_ge_None in Hp. lia.
    + rewrite (proj1 (lookup_replicate_None _ _ _)) by lia.
      rewrite (proj2 (lookup_ge_None (reverse row) X)) by (rewrite length_reverse; lia).
      reflexivity.
  - rewrite (proj1 (lookup_replicate_None _ _ _)) by lia.
    rewrite (proj2 (lookup_ge_None (frame v) Y)) by lia. reflexivity.
Qed.

End Drawing.

(* ===================================================================== *)
(** ** The camera component: handlers                                    *)
(* ===================================================================== *)

Section Camera.
Import Canvas ImageUpload.
Variable toDataURL : string -> Canvas -> string.

(** [emit] only appends to the log, which nothing reads: it moves out of
    every operation. *)

Lemma set_state_emit (i : nat) (f : State -> State) (e : Effect) (s : Sys) :
  set_state i f (emit e s) = emit e (set_state i f s).
Proof.
  unfold set_state. cbn. destruct (mounted s && Nat.eqb i (instance s)); reflexivity.
Qed.

Lemma stop_tracks_emit (sid : nat) (e : Effect) (s : Sys) :
  stop_tracks sid (emit e s) = emit e (stop_tracks sid s).
Proof. reflexivity. Qed.

Lemma stop_tracks_opt_emit (o : option nat) (e : Effect) (s : Sys) :
  stop_tracks_opt o (emit e s) = emit e (stop_tracks_opt o s).
Proof. destruct o; reflexivity. Qed.

Lemma on_video_emit (o : option nat) (f : Video -> Video) (e : Effect) (s : Sys) :
  on_video o f (emit e s) = emit e (on_video o f s).
Proof. destruct o; reflexivity. Qed.

Lemma alter_closures_emit (f : Closure -> Closure) (eid : nat) (e : Effect) (s : Sys) :
  with_closures (alter f eid (closures (emit e s))) (emit e s)
  = emit e (with_closures (alter f eid (closures s)) s).
Proof. reflexivity. Qed.

Lemma cleanup_emit (c : Closure) (e : Effect) (s : Sys) :
  cleanup c (emit e s) = emit e (cleanup c s).
Proof.
  unfold cleanup.
  now rewrite set_state_emit, stop_tracks_opt_emit, on_video_emit, set_state_emit.
Qed.

Lemma setupStream_start_emit (eid : nat) (c : Closure) (e : Effect) (s : Sys) :
  setupStream_start eid c (emit e s) = emit e (setupStream_start eid c s).
Proof.
  unfold setupStream_start.
  destruct (negb (dep_showCamera c) || negb (bool_decide (is_Some (videoElement c))));
    [reflexivity|].
  rewrite set_state_emit. destruct (seen_stream c) as [sid|].
  - rewrite stop_tracks_emit, set_state_emit. apply alter_closures_emit.
  - apply alter_closures_emit.
Qed.

Lemma run_effect_emit (st : State) (e : Effect) (s : Sys) :
  run_effect st (emit e s) = emit e (run_effect st s).
Proof. unfold run_effect. rewrite <- setupStream_start_emit. reflexivity. Qed.

Lemma render_video_emit (e : Effect) (s : Sys) :
  render_video (emit e s) = emit e (render_video s).
Proof.
  unfold render_video. cbn. destruct (showCamera (state s)), (videoRef s); reflexivity.
Qed.

Lemma commit_emit (e : Effect) (s : Sys) : commit (emit e s) = emit e (commit s).
Proof.
  unfold commit. cbn [mounted emit]. destruct (mounted s); [|reflexivity].
  rewrite render_video_emit. cbn [effect closures state emit].
  destruct (effect (render_video s) ≫= _) as [c|].
  - destruct (same_deps c _); [reflexivity|]. now rewrite cleanup_emit, run_effect_emit.
  - apply run_effect_emit.
Qed.

Lemma ready_false (v : Video) :
  readyState v < HAVE_METADATA \/ videoWidth v = 0 \/ videoHeight v = 0 <-> ready v = false.
Proof.
  unfold ready.
  destruct (Nat.ltb_spec (readyState v) HAVE_METADATA),
           (Nat.eqb_spec (videoWidth v) 0), (Nat.eqb_spec (videoHeight v) 0);
    cbn; intuition (congruence || lia).
Qed.

(** C4.  A capture request on a video that has not reached
    [HAVE_METADATA], or whose width or height is still zero, only alerts:
    the component state, the streams, the video elements and the running
    effect are left as they were, [onImageSelected] is not called, and
    the click as a whole does no more than that. *)
Theorem capturePhoto_rejects_unready (ctx_ok : bool) (s : Sys) (v : Video) :
  current_video s = Some v ->
  readyState v < HAVE_METADATA \/ videoWidth v = 0 \/ videoHeight v = 0 ->
  commit s = s ->
  exists msg,
    capturePhoto toDataURL ctx_ok s = emit (Alert msg) s
    /\ step toDataURL s (ClickCapture ctx_ok)
       = (if camera_controls s then emit (Alert msg) s else s)
    /\ state (capturePhoto toDataURL ctx_ok s) = state s
    /\ streams (capturePhoto toDataURL ctx_ok s) = streams s
    /\ effect (capturePhoto toDataURL ctx_ok s) = effect s
    /\ log (capturePhoto toDataURL ctx_ok s) = log s ++ [Alert msg].
Proof.
  intros Hv Hnot Hsettled.
  assert (exists msg, capturePhoto toDataURL ctx_ok s = emit (Alert msg) s) as [msg Hcap].
  { unfold capturePhoto. rewrite Hv.
    destruct (Nat.ltb_spec (readyState v) HAVE_METADATA) as [Hrs|Hrs]; [eauto|].
    destruct (Nat.eqb_spec (videoWidth v) 0), (Nat.eqb_spec (videoHeight v) 0);
      cbn [orb]; eauto. lia. }
  exists msg. split; [exact Hcap|]. split.
  - cbn [step]. destruct (camera_controls s); [|reflexivity].
    now rewrite Hcap, commit_emit, Hsettled.
  - rewrite Hcap. repeat split.
Qed.

(** C10.  On a video that is ready, a capture for which no 2D context can
    be had alerts and stops there: nothing is handed to [onImageSelected],
    [showCamera] stays set, no track is stopped and no cleanup runs. *)
Theorem capturePhoto_without_context (s : Sys) (v : Video) :
  current_video s = Some v ->
  ready v = true ->
  commit s = s ->
  let s' := capturePhoto toDataURL false s in
  s' = emit (Alert "Failed to capture photo. Could not process image.") s
  /\ step toDataURL s (ClickCapture false) = (if camera_controls s then s' else s)
  /\ state s' = state s
  /\ streams s' = streams s
  /\ videos s' = videos s
  /\ effect s' = effect s
  /\ closures s' = closures s.
Proof.
  intros Hv Hready Hsettled s'.
  assert (s' = emit (Alert "Failed to capture photo. Could not process image.") s) as Hcap.
  { subst s'. unfold capturePhoto. rewrite Hv. unfold ready in Hready.
    apply andb_prop in Hready as [H1 H2].
    apply negb_true_iff in H1, H2. now rewrite H1, H2. }
  split; [exact Hcap|]. split.
  - cbn [step]. destruct (camera_controls s); [|reflexivity].
    fold s'. now rewrite Hcap, commit_emit, Hsettled.
  - rewrite Hcap. repeat split.
Qed.

(** C5.  A successful capture hands [onImageSelected] the encoding of a
    canvas of the video's size; with the front camera that canvas holds
    the frame mirrored left to right, with the rear camera the frame as it
    is. *)
Theorem capturePhoto_mirrors_front_camera (s : Sys) (v : Video) :
  current_video s = Some v ->
  ready v = true ->
  frame_ok v ->
  let drawn := capture_canvas (facingMode (state s)) v in
  capturePhoto toDataURL true s
    = stopCamera (emit (ImageSelected (inl (toDataURL "image/jpeg" drawn))) s)
  /\ width drawn = videoWidth v
  /\ height drawn = videoHeight v
  /\ bitmap drawn
     = match facingMode (state s) with
       | user => covered_by (mirror (frame v))
       | environment => covered_by (frame v)
       end.
Proof.
  intros Hv Hready Hok drawn. split; [|split; [|split]].
  - unfold capturePhoto. rewrite Hv. unfold ready in Hready.
    apply andb_prop in Hready as [H1 H2].
    apply negb_true_iff in H1, H2. now rewrite H1, H2.
  - subst drawn. now destruct (facingMode (state s)).
  - subst drawn. now destruct (facingMode (state s)).
  - subst drawn. destruct (facingMode (state s)).
    + now apply capture_canvas_environment.
    + now apply capture_canvas_user.
Qed.

(** C6.  [handleFile] calls [onImageSelected] exactly for the files whose
    declared type starts with [image/]; any other file is answered with an
    alert and nothing else changes. *)
Theorem handleFile_image_only (file : App.File) (s : Sys) :
  (handleFile file s = emit (ImageSelected (inr file)) s
     <-> String.prefix "image/" (App.file_type file) = true)
  /\ (String.prefix "image/" (App.file_type file) = false ->
      handleFile file s = emit (Alert "Please upload an image file") s
      /\ state (handleFile file s) = state s
      /\ streams (handleFile file s) = streams s
      /\ (forall data, ImageSelected data ∉ drop (length (log s)) (log (handleFile file s)))).
Proof.
  unfold handleFile. destruct (String.prefix "image/" (App.file_type file)); split.
  - split; reflexivity.
  - discriminate.
  - split; [|discriminate]. intros H. apply (f_equal log) in H. cbn in H.
    apply app_inv_head in H. discriminate.
  - intros _. repeat split. intros data. cbn.
    rewrite drop_app_length. intros Hin. apply list_elem_of_singleton in Hin. discriminate.
Qed.


(** Between two events nothing is left to render or to re-run. *)

Lemma closures_set_state (i : nat) (f : State -> State) (s : Sys) :
  closures (set_state i f s) = closures s.
Proof. unfold set_state. now destruct (mounted s && Nat.eqb i (instance s)). Qed.

Lemma closures_cleanup (c : Closure) (s : Sys) : closures (cleanup c s) = closures s.
Proof.
  unfold cleanup. rewrite closures_set_state.
  destruct (videoElement c), (currentStream c); cbn; now rewrite closures_set_state.
Qed.

Lemma closures_render_video (s : Sys) : closures (render_video s) = closures s.
Proof. unfold render_video. now destruct (showCamera (state s)), (videoRef s). Qed.

Lemma length_closures_run_effect (st : State) (s : Sys) :
  length (closures (run_effect st s)) = S (length (closures s)).
Proof.
  unfold run_effect, setupStream_start.
  destruct (negb _ || negb _).
  - cbn. rewrite length_app. cbn. lia.
  - cbn [closures with_closures]. rewrite length_alter.
    destruct (seen_stream _); rewrite ?closures_set_state; cbn;
      rewrite ?closures_set_state; cbn; rewrite length_app; cbn; lia.
Qed.

Lemma settled_inv (s : Sys) :
  mounted s = true ->
  commit s = s ->
  render_video s = s
  /\ exists c, effect s ≫= (fun eid => closures s !! eid) = Some c
               /\ same_deps c (state s) = true.
Proof.
  intros Hm Hs. unfold commit in Hs. rewrite Hm in Hs.
  destruct (effect (render_video s) ≫= _) as [c|] eqn:Hc.
  - destruct (same_deps c (state (render_video s))) eqn:Hd.
    + rewrite Hs in Hc, Hd. eauto.
    + exfalso. apply (f_equal (fun x => length (closures x))) in Hs.
      rewrite length_closures_run_effect, closures_cleanup, closures_render_video in Hs. lia.
  - exfalso. apply (f_equal (fun x => length (closures x))) in Hs.
    rewrite length_closures_run_effect, closures_render_video in Hs. lia.
Qed.

Lemma commit_loading (b : bool) (s : Sys) :
  mounted s = true ->
  commit s = s ->
  commit (with_state (setIsCameraLoading b (state s)) s)
  = with_state (setIsCameraLoading b (state s)) s.
Proof.
  intros Hm Hs. destruct (settled_inv s Hm Hs) as (Hr & c & Hc & Hd).
  unfold commit. cbn [mounted with_state]. rewrite Hm.
  assert (render_video (with_state (setIsCameraLoading b (state s)) s)
          = with_state (setIsCameraLoading b (state s)) s) as ->.
  { unfold render_video in *. cbn [state with_state showCamera setIsCameraLoading videoRef].
    destruct (showCamera (state s)), (videoRef s) as [vid|] eqn:Hv; try reflexivity.
    - apply (f_equal (fun x => length (videos x))) in Hr. cbn in Hr.
      rewrite length_app in Hr. cbn in Hr. lia.
    - apply (f_equal videoRef) in Hr. cbn in Hr. congruence.
    - destruct s. cbn in Hv |- *. now subst. }
  cbn [effect closures with_state state]. rewrite Hc.
  replace (same_deps c (setIsCameraLoading b (state s))) with true by (symmetry; exact Hd).
  reflexivity.
Qed.

Lemma set_state_own (f : State -> State) (s : Sys) :
  mounted s = true -> set_state (instance s) f s = with_state (f (state s)) s.
Proof. intros Hm. unfold set_state. now rewrite Hm, Nat.eqb_refl. Qed.

Lemma clear_loading_idem (s : Sys) :
  isCameraLoading (state s) = false ->
  with_state (setIsCameraLoading false (state s)) s = s.
Proof.
  destruct s as [m i [sc st fm ld ts tn] vr vs ss cs ef lg]. cbn. now intros ->.
Qed.

(** What the two [play] continuations do to a settled system. *)
Lemma play_settled_step (eid : nat) (c : Closure) (ok : bool) (s : Sys) :
  mounted s = true ->
  commit s = s ->
  streaming eid s = Some c ->
  owner c = instance s ->
  step toDataURL s (Played eid ok)
    = (if ok then with_state (setIsCameraLoading false (state s)) s else s)
  /\ step toDataURL s (MetadataPlayed eid ok)
     = with_state (setIsCameraLoading false (state s)) s.
Proof.
  intros Hm Hs Hst Hown. cbn [step]. rewrite Hst.
  unfold setupStream_played, onloadedmetadata_played.
  rewrite Hown, (set_state_own _ s Hm).
  destruct ok; rewrite ?(commit_loading false s Hm Hs);
    [split; reflexivity | split; [exact Hs | reflexivity]].
Qed.

(** C8.  While a stream is being started, whichever [play] succeeds first
    clears the loading flag, and the signal that arrives once the flag is
    clear (the other [play], settled either way) leaves the whole system
    as it is. *)
Theorem loading_cleared_by_first_play (eid : nat) (c : Closure) (ok : bool) (s : Sys) :
  mounted s = true ->
  commit s = s ->
  streaming eid s = Some c ->
  owner c = instance s ->
  let immediate_first := step toDataURL s (Played eid true) in
  let metadata_first := step toDataURL s (MetadataPlayed eid true) in
  isCameraLoading (state immediate_first) = false
  /\ isCameraLoading (state metadata_first) = false
  /\ step toDataURL immediate_first (MetadataPlayed eid ok) = immediate_first
  /\ step toDataURL metadata_first (Played eid ok) = metadata_first
  /\ (isCameraLoading (state s) = false ->
      step toDataURL s (Played eid ok) = s /\ step toDataURL s (MetadataPlayed eid ok) = s).
Proof.
  intros Hm Hs Hst Hown immediate_first metadata_first.
  destruct (play_settled_step eid c true s Hm Hs Hst Hown) as [Himm Hmeta].
  subst immediate_first metadata_first. rewrite Himm, Hmeta.
  set (s1 := with_state (setIsCameraLoading false (state s)) s).
  assert (mounted s1 = true) as Hm1 by exact Hm.
  assert (commit s1 = s1) as Hs1 by exact (commit_loading false s Hm Hs).
  assert (streaming eid s1 = Some c) as Hst1 by exact Hst.
  assert (owner c = instance s1) as Hown1 by exact Hown.
  assert (with_state (setIsCameraLoading false (state s1)) s1 = s1) as Hidem
    by (now apply clear_loading_idem).
  destruct (play_settled_step eid c ok s1 Hm1 Hs1 Hst1 Hown1) as [Himm1 Hmeta1].
  rewrite Hidem in Himm1, Hmeta1.
  split; [reflexivity|]. split; [reflexivity|]. split; [exact Hmeta1|]. split.
  - rewrite Himm1. now destruct ok.
  - intros Hclear. apply clear_loading_idem in Hclear.
    destruct (play_settled_step eid c ok s Hm Hs Hst Hown) as [Himm0 Hmeta0].
    rewrite Hclear in Himm0, Hmeta0. split; [|exact Hmeta0].
    rewrite Himm0. now destruct ok.
Qed.

(** How [cleanup] and a fresh run of the effect act on the mounted
    instance. *)

Lemma cleanup_own (c : Closure) (s : Sys) :
  mounted s = true ->
  owner c = instance s ->
  cleanup c s
  = with_state
      (let st := setIsCameraLoading false (state s) in
       if bool_decide (stream st = currentStream c) then setStream None st else st)
      (on_video (videoElement c) detach (stop_tracks_opt (currentStream c) s)).
Proof.
  intros Hm Hown. unfold cleanup. rewrite Hown, (set_state_own _ s Hm).
  destruct (currentStream c) as [sid|], (videoElement c) as [vid|];
    cbn [stop_tracks_opt on_video]; unfold stop_tracks, set_state; cbn;
    rewrite Hm, Nat.eqb_refl; reflexivity.
Qed.

Lemma alter_snoc {A} (f : A -> A) (l : list A) (x : A) :
  alter f (length l) (l ++ [x]) = l ++ [f x].
Proof.
  rewrite <- (Nat.add_0_r (length l)). now rewrite alter_app_r.
Qed.

Lemma run_effect_opening (st : State) (s : Sys) (vid : nat) :
  mounted s = true ->
  showCamera st = true ->
  videoRef s = Some vid ->
  let c := {| owner := instance s; dep_showCamera := true; dep_facingMode := facingMode st;
              seen_stream := stream st; videoElement := Some vid; currentStream := None;
              awaiting := true |} in
  run_effect st s
  = with_effect (Some (length (closures s)))
      (with_closures (closures s ++ [c])
         (with_state
            (match stream st with
             | Some _ => setStream None (setIsCameraLoading true (state s))
             | None => setIsCameraLoading true (state s)
             end)
            (stop_tracks_opt (stream st) s))).
Proof.
  intros Hm Hshow Hvid c. subst c.
  unfold run_effect, setupStream_start.
  cbn [dep_showCamera videoElement owner seen_stream]. rewrite Hshow, Hvid. cbn [negb orb].
  destruct s as [m i sta vr vs ss cs ef lg]. cbn in Hm, Hvid. subst m vr.
  unfold set_state, stop_tracks_opt, stop_tracks, with_effect, with_closures, with_state,
    with_streams.
  cbn [mounted instance state videoRef videos streams closures effect log andb].
  rewrite Nat.eqb_refl.
  destruct (stream st) as [sid|];
    cbn [mounted instance state videoRef videos streams closures effect log andb];
    rewrite ?Nat.eqb_refl;
    cbn [mounted instance state videoRef videos streams closures effect log andb];
    rewrite alter_snoc; reflexivity.
Qed.

Lemma same_deps_flip (c : Closure) (st : State) :
  same_deps c st = true -> same_deps c (setFacingMode (flip (facingMode st)) st) = false.
Proof.
  unfold same_deps. cbn. intros H. apply andb_prop in H as [_ H].
  destruct (dep_facingMode c), (facingMode st); try discriminate; cbn; apply andb_false_r.
Qed.

Lemma active_stopped (tracks : list Track) : active (map stop tracks) = false.
Proof. induction tracks as [|tr tracks IH]; [reflexivity | exact IH]. Qed.

(** Switching cameras on a live view: the tracks of the stream in use are
    stopped, and only then is a new effect run left waiting for the next
    stream; no stream has been added yet. *)
Lemma ClickSwitch_live (s : Sys) (eid vid sid : nat) (c : Closure) :
  camera_controls s = true ->
  videoRef s = Some vid ->
  effect s = Some eid ->
  closures s !! eid = Some c ->
  same_deps c (state s) = true ->
  owner c = instance s ->
  currentStream c = Some sid ->
  stream (state s) = Some sid ->
  let s' := step toDataURL s ClickSwitch in
  streams s' = alter (map stop) sid (alter (map stop) sid (streams s))
  /\ (forall tracks, streams s' !! sid = Some tracks -> active tracks = false)
  /\ effect s' = Some (length (closures s))
  /\ closures s' !! length (closures s)
     = Some {| owner := instance s; dep_showCamera := true;
               dep_facingMode := flip (facingMode (state s)); seen_stream := Some sid;
               videoElement := Some vid; currentStream := None; awaiting := true |}
  /\ mounted s' = true
  /\ instance s' = instance s
  /\ videoRef s' = Some vid
  /\ state s' = setStream None
                  (setIsCameraLoading true
                     (setFacingMode (flip (facingMode (state s))) (state s))).
Proof.
  intros Hctl Hvid Heff Hc Hdeps Hown Hcur Hst s'.
  assert (s' = run_effect (setFacingMode (flip (facingMode (state s))) (state s))
                 (cleanup c (with_state (setFacingMode (flip (facingMode (state s))) (state s)) s)))
    as Hs'.
  { subst s'. cbn [step]. rewrite Hctl.
    unfold camera_controls in Hctl. apply andb_prop in Hctl as [Hctl Hload].
    apply andb_prop in Hctl as [Hm Hshow].
    unfold toggleCamera. rewrite (set_state_own _ s Hm).
    unfold commit. cbn [mounted with_state]. rewrite Hm.
    unfold render_video. cbn [state with_state videoRef].
    replace (showCamera (setFacingMode (flip (facingMode (state s))) (state s)))
      with true by (symmetry; exact Hshow).
    rewrite Hvid. cbn [effect closures with_state state]. rewrite Heff.
    cbn [mbind option_bind]. rewrite Hc.
    now rewrite (same_deps_flip _ _ Hdeps). }
  clearbody s'. subst s'.
  unfold camera_controls in Hctl. apply andb_prop in Hctl as [Hctl Hload].
  apply andb_prop in Hctl as [Hm Hshow].
  rewrite cleanup_own by (cbn; assumption). rewrite Hcur.
  cbn [stop_tracks_opt state with_state stream setIsCameraLoading setFacingMode].
  rewrite Hst. rewrite bool_decide_eq_true_2 by reflexivity.
  rewrite (run_effect_opening _ _ vid);
    [| now destruct (videoElement c) | exact Hshow | now destruct (videoElement c)].
  cbn [stream setFacingMode facingMode showCamera]. rewrite Hst.
  assert (forall o f x, streams (on_video o f x) = streams x) as Hov by (now intros [?|] ? ?).
  assert (forall o f x, closures (on_video o f x) = closures x) as Hoc by (now intros [?|] ? ?).
  assert (forall o f x, instance (on_video o f x) = instance x) as Hoi by (now intros [?|] ? ?).
  cbn [streams closures effect state with_effect with_closures with_state stop_tracks_opt
         stop_tracks with_streams instance mounted videoRef].
  rewrite Hov, Hoc, Hoi. cbn [streams closures with_streams with_state instance].
  split; [reflexivity|]. split; [|split; [reflexivity|split]].
  - intros tracks Htr. rewrite list_lookup_alter_eq in Htr.
    apply fmap_Some in Htr as (tr & _ & ->). apply active_stopped.
  - now rewrite list_lookup_middle by reflexivity.
  - repeat split; try (now destruct (videoElement c)).
Qed.

(** C7, as the code has it: the view is closed while [getUserMedia] is
    still pending, so the cleanup finds [currentStream] empty and stops
    nothing; the stream that arrives afterwards stays live with the
    component gone, and the next opening adds a second live stream. *)
Theorem unmount_while_opening_leaks_stream :
  let opening := run toDataURL boot [Mount; ClickTakePhoto] in
  let closed := step toDataURL opening Unmount in
  let late := step toDataURL closed (Granted 1 [None]) in
  let again := run toDataURL late [Mount; ClickTakePhoto; Granted 3 [None]] in
  pending 1 opening <> None
  /\ mounted closed = false
  /\ active_streams closed = []
  /\ mounted late = false
  /\ active_streams late = [0]
  /\ isCameraLoading (state again) = true
  /\ active_streams again = [0; 1]
  /\ ~ at_most_one_active again.
Proof.
  cbn zeta. repeat split; try reflexivity; try discriminate.
  unfold at_most_one_active.
  change (active_streams _) with [0; 1]. cbn. lia.
Qed.


Lemma elem_of_active_streams (s : Sys) (i : nat) :
  i ∈ active_streams s <-> exists tracks, streams s !! i = Some tracks /\ active tracks = true.
Proof.
  unfold active_streams. rewrite list_elem_of_omap. split.
  - intros ([j tr] & Hin & Hf).
    apply elem_of_lookup_imap in Hin as (k & x & Heq & Hl).
    simplify_eq/=. case_match; simplify_eq. eauto.
  - intros (tr & Hl & Ha). exists (i, tr). split.
    + apply elem_of_lookup_imap. eauto.
    + change (snd (i, tr)) with tr. change (fst (i, tr)) with i. now rewrite Ha.
Qed.

(** The stream arrives while the effect run that asked for it is still the
    current one: it is added, live, as the stream of the component; nothing
    else is started or stopped. *)
Lemma Granted_opening (s : Sys) (eid vid : nat) (c : Closure)
    (cap : option bool) (caps : list (option bool)) :
  mounted s = true ->
  videoRef s = Some vid ->
  effect s = Some eid ->
  closures s !! eid = Some c ->
  awaiting c = true ->
  owner c = instance s ->
  same_deps c (state s) = true ->
  showCamera (state s) = true ->
  let s' := step toDataURL s (Granted eid (cap :: caps)) in
  streams s' = streams s ++ [map new_track (cap :: caps)]
  /\ stream (state s') = Some (length (streams s))
  /\ effect s' = Some eid
  /\ closures s' !! eid = Some (set_currentStream (Some (length (streams s))) (set_awaiting false c)).
Proof.
  intros Hm Hvid Heff Hc Haw Hown Hdeps Hshow s'. subst s'.
  cbn [step]. unfold pending. rewrite Hc, Haw.
  unfold setupStream_granted. cbn [map].
  remember (with_closures _ (with_streams _ s)) as s1 eqn:Hs1.
  assert (mounted s1 = true /\ instance s1 = instance s /\ videoRef s1 = Some vid
          /\ effect s1 = Some eid /\ state s1 = state s
          /\ streams s1 = streams s ++ [new_track cap :: map new_track caps]
          /\ closures s1 !! eid
             = Some (set_currentStream (Some (length (streams s))) (set_awaiting false c)))
    as (Hm1 & Hi1 & Hv1 & He1 & Hst1 & Hss1 & Hc1).
  { subst s1. cbn. repeat split; try assumption.
    rewrite list_lookup_alter_eq, Hc. reflexivity. }
  clear Hs1. rewrite <- Hi1 in Hown.
  assert (forall f x, mounted x = true -> instance x = instance s1 ->
            set_state (owner c) f x = with_state (f (state x)) x) as Hset.
  { intros f x Hmx Hix. unfold set_state. now rewrite Hmx, Hown, Hix, Nat.eqb_refl. }
  rewrite (Hset _ s1 Hm1 eq_refl).
  rewrite Hset by (cbn; first [assumption | reflexivity]).
  cbn [state with_state]. rewrite Hst1.
  remember (on_video _ _ _) as s2 eqn:Hs2.
  assert (mounted s2 = true /\ videoRef s2 = Some vid /\ effect s2 = Some eid
          /\ state s2 = setStream (Some (length (streams s)))
                          (setIsTorchSupported (bool_decide (is_Some cap)) (state s))
          /\ streams s2 = streams s ++ [new_track cap :: map new_track caps]
          /\ closures s2 !! eid
             = Some (set_currentStream (Some (length (streams s))) (set_awaiting false c)))
    as (Hm2 & Hv2 & He2 & Hst2 & Hss2 & Hc2).
  { subst s2. destruct (videoElement c); cbn; repeat split; assumption. }
  clear Hs2.
  unfold commit. rewrite Hm2. unfold render_video. rewrite Hst2.
  cbn [showCamera setStream setIsTorchSupported]. rewrite Hshow, Hv2, He2.
  cbn [mbind option_bind]. rewrite Hc2.
  assert (same_deps (set_currentStream (Some (length (streams s))) (set_awaiting false c))
            (state s2) = true) as ->.
  { rewrite Hst2. exact Hdeps. }
  rewrite Hst2. repeat split; assumption.
Qed.

(** Switching cameras on a live view whose stream is the only active one:
    once the new stream is granted it is the only active one. *)
Lemma switch_leaves_one_stream (s : Sys) (eid vid sid : nat) (c : Closure)
    (cap : option bool) (caps : list (option bool)) :
  camera_controls s = true ->
  videoRef s = Some vid ->
  effect s = Some eid ->
  closures s !! eid = Some c ->
  same_deps c (state s) = true ->
  owner c = instance s ->
  currentStream c = Some sid ->
  stream (state s) = Some sid ->
  (forall i, i ∈ active_streams s -> i = sid) ->
  let s' := run toDataURL s [ClickSwitch; Granted (length (closures s)) (cap :: caps)] in
  forall i, i ∈ active_streams s' <-> i = length (streams s).
Proof.
  intros Hctl Hvid Heff Hc Hdeps Hown Hcur Hst Honly s' i. subst s'.
  cbn [run fold_left].
  destruct (ClickSwitch_live s eid vid sid c Hctl Hvid Heff Hc Hdeps Hown Hcur Hst)
    as (Hss1 & _ & He1 & Hc1 & Hm1 & Hi1 & Hv1 & Hst1).
  set (s1 := step toDataURL s ClickSwitch) in *. clearbody s1.
  unfold camera_controls in Hctl. apply andb_prop in Hctl as [Hctl _].
  apply andb_prop in Hctl as [_ Hshow].
  destruct (Granted_opening s1 (length (closures s)) vid _ cap caps Hm1 Hv1 He1 Hc1)
    as (Hss2 & _).
  - reflexivity.
  - now rewrite Hi1.
  - rewrite Hst1. unfold same_deps. cbn. rewrite Hshow.
    now destruct (flip (facingMode (state s))).
  - rewrite Hst1. exact Hshow.
  - rewrite elem_of_active_streams, Hss2.
    assert (length (streams s1) = length (streams s)) as Hlen
      by (rewrite Hss1, !length_alter; reflexivity).
    split.
    + intros (tracks & Hl & Ha). apply lookup_snoc_Some in Hl as [[Hlt Hl]|[Hi _]].
      * exfalso. rewrite Hss1 in Hl.
        destruct (decide (i = sid)) as [->|Hne].
        -- rewrite list_lookup_alter_eq in Hl.
           apply fmap_Some in Hl as (tr & _ & ->). now rewrite active_stopped in Ha.
        -- rewrite !list_lookup_alter_ne in Hl by congruence.
           apply Hne, Honly, elem_of_active_streams. eauto.
      * now rewrite Hi, Hlen.
    + intros ->. eexists. split.
      * rewrite <- Hlen. now apply list_lookup_middle.
      * reflexivity.
Qed.

End Camera.

Section CameraExamples.
Import Canvas ImageUpload SampleCamera.

Example rear_live_state :
  state rear_live
  = {| showCamera := true; stream := Some 0; facingMode := environment;
       isCameraLoading := false; isTorchSupported := true; isTorchOn := false |}
  /\ active_streams rear_live = [0]
  /\ commit rear_live = rear_live.
Proof. vm_compute. repeat split. Qed.

Example front_ready_state :
  state front_ready
  = {| showCamera := true; stream := Some 1; facingMode := user;
       isCameraLoading := false; isTorchSupported := false; isTorchOn := false |}
  /\ active_streams front_ready = [1]
  /\ current_video front_ready
     = Some {| readyState := 4; videoWidth := 3; videoHeight := 2; frame := leaf;
               srcObject := Some 1; onloadedmetadata := Some 2 |}.
Proof. vm_compute. repeat split. Qed.

Lemma capturePhoto_rejects_unready_witness :
  current_video rear_live
    = Some {| readyState := 0; videoWidth := 0; videoHeight := 0; frame := [];
              srcObject := Some 0; onloadedmetadata := Some 1 |}
  /\ commit rear_live = rear_live
  /\ exists msg,
      capturePhoto encode true rear_live = emit (Alert msg) rear_live
      /\ step encode rear_live (ClickCapture true)
         = (if camera_controls rear_live then emit (Alert msg) rear_live else rear_live)
      /\ state (capturePhoto encode true rear_live) = state rear_live
      /\ streams (capturePhoto encode true rear_live) = streams rear_live
      /\ effect (capturePhoto encode true rear_live) = effect rear_live
      /\ log (capturePhoto encode true rear_live) = log rear_live ++ [Alert msg].
Proof.
  assert (current_video rear_live
          = Some {| readyState := 0; videoWidth := 0; videoHeight := 0; frame := [];
                    srcObject := Some 0; onloadedmetadata := Some 1 |}) as Hv
    by (vm_compute; reflexivity).
  assert (commit rear_live = rear_live) as Hsettled by (vm_compute; reflexivity).
  split; [exact Hv|]. split; [exact Hsettled|].
  apply (capturePhoto_rejects_unready encode true rear_live _ Hv); [|exact Hsettled].
  left. unfold HAVE_METADATA. cbn. lia.
Defined.

Lemma capturePhoto_without_context_witness :
  commit rear_ready = rear_ready
  /\ capturePhoto encode false rear_ready
     = emit (Alert "Failed to capture photo. Could not process image.") rear_ready
  /\ step encode rear_ready (ClickCapture false)
     = (if camera_controls rear_ready then capturePhoto encode false rear_ready
        else rear_ready)
  /\ state (capturePhoto encode false rear_ready) = state rear_ready
  /\ streams (capturePhoto encode false rear_ready) = streams rear_ready.
Proof.
  assert (current_video rear_ready
          = Some {| readyState := 4; videoWidth := 3; videoHeight := 2; frame := leaf;
                    srcObject := Some 0; onloadedmetadata := Some 1 |}) as Hv
    by (vm_compute; reflexivity).
  assert (commit rear_ready = rear_ready) as Hsettled by (vm_compute; reflexivity).
  split; [exact Hsettled|].
  destruct (capturePhoto_without_context encode rear_ready _ Hv eq_refl Hsettled)
    as (Hcap & Hstep & Hstate & Hstreams & _).
  split; [exact Hcap|]. split; [exact Hstep|]. split; [exact Hstate | exact Hstreams].
Defined.

Lemma capturePhoto_mirrors_front_camera_witness :
  current_video front_ready
    = Some {| readyState := 4; videoWidth := 3; videoHeight := 2; frame := leaf;
              srcObject := Some 1; onloadedmetadata := Some 2 |}
  /\ frame_ok {| readyState := 4; videoWidth := 3; videoHeight := 2; frame := leaf;
                 srcObject := Some 1; onloadedmetadata := Some 2 |}
  /\ bitmap (capture_canvas (facingMode (state front_ready))
              {| readyState := 4; videoWidth := 3; videoHeight := 2; frame := leaf;
                 srcObject := Some 1; onloadedmetadata := Some 2 |})
     = match facingMode (state front_ready) with
       | user => covered_by (mirror leaf)
       | environment => covered_by leaf
       end.
Proof.
  assert (current_video front_ready
          = Some {| readyState := 4; videoWidth := 3; videoHeight := 2; frame := leaf;
                    srcObject := Some 1; onloadedmetadata := Some 2 |}) as Hv
    by (vm_compute; reflexivity).
  assert (frame_ok {| readyState := 4; videoWidth := 3; videoHeight := 2; frame := leaf;
                      srcObject := Some 1; onloadedmetadata := Some 2 |}) as Hok
    by (split; [reflexivity | repeat constructor]).
  split; [exact Hv|]. split; [exact Hok|].
  exact (proj2 (proj2 (proj2
    (capturePhoto_mirrors_front_camera encode front_ready _ Hv eq_refl Hok)))).
Defined.

(** The same capture, computed: the rows of [leaf] come out reversed, the
    data URL reaches [onImageSelected] and the camera view is closed. *)
Example front_capture_computed :
  facingMode (state front_ready) = user
  /\ bitmap (capture_canvas user
            {| readyState := 4; videoWidth := 3; videoHeight := 2; frame := leaf;
               srcObject := Some 1; onloadedmetadata := Some 2 |})
    = [[Some 3; Some 2; Some 1]; [Some 6; Some 5; Some 4]]%Z
  /\ log (step encode front_ready (ClickCapture true))
     = [ImageSelected (inl "data:image/jpeg;base64,AAAA")]
  /\ showCamera (state (step encode front_ready (ClickCapture true))) = false
  /\ active_streams (step encode front_ready (ClickCapture true)) = [].
Proof. vm_compute. repeat split. Qed.

(** Switching cameras on [rear_live]: the rear stream is released and the
    front stream is the only active one. *)
Example switch_on_rear_live (i : nat) :
  i ∈ active_streams (run encode rear_live [ClickSwitch; Granted 2 [None]]) <-> i = 1.
Proof.
  apply (switch_leaves_one_stream encode rear_live 1 0 0
           {| owner := 1; dep_showCamera := true; dep_facingMode := environment;
              seen_stream := None; videoElement := Some 0; currentStream := Some 0;
              awaiting := false |} None []);
    try (vm_compute; reflexivity).
  intros j Hj. change (active_streams rear_live) with [0] in Hj.
  now apply list_elem_of_singleton in Hj.
Qed.

Lemma handleFile_image_only_witness :
  handleFile png rear_live = emit (ImageSelected (inr png)) rear_live
  /\ handleFile pdf rear_live = emit (Alert "Please upload an image file") rear_live.
Proof.
  split.
  - apply (proj1 (handleFile_image_only png rear_live)). reflexivity.
  - apply (proj2 (handleFile_image_only pdf rear_live)). reflexivity.
Defined.


Lemma loading_cleared_by_first_play_witness :
  mounted rear_starting = true
  /\ commit rear_starting = rear_starting
  /\ isCameraLoading (state rear_starting) = true
  /\ isCameraLoading (state (step encode rear_starting (Played 1 true))) = false
  /\ step encode (step encode rear_starting (Played 1 true)) (MetadataPlayed 1 true)
     = step encode rear_starting (Played 1 true)
  /\ step encode (step encode rear_starting (MetadataPlayed 1 true)) (Played 1 true)
     = step encode rear_starting (MetadataPlayed 1 true).
Proof.
  assert (mounted rear_starting = true) as Hm by (vm_compute; reflexivity).
  assert (commit rear_starting = rear_starting) as Hs by (vm_compute; reflexivity).
  assert (streaming 1 rear_starting
          = Some {| owner := 1; dep_showCamera := true; dep_facingMode := environment;
                    seen_stream := None; videoElement := Some 0; currentStream := Some 0;
                    awaiting := false |}) as Hst by (vm_compute; reflexivity).
  assert (1 = instance rear_starting) as Hi by (vm_compute; reflexivity).
  split; [exact Hm|]. split; [exact Hs|]. split; [vm_compute; reflexivity|].
  destruct (loading_cleared_by_first_play encode 1 _ true rear_starting Hm Hs Hst Hi)
    as (Hfirst & _ & Hsecond & Hsecond' & _).
  split; [exact Hfirst|]. split; [exact Hsecond | exact Hsecond'].
Defined.

End CameraExamples.

(* ===================================================================== *)
(** ** The application shell: location, reset, panes, storage            *)
(* ===================================================================== *)

Section Shell.
Import App HistoryView AppControls.
Variable J : json_codec.
Variable exact : js_value -> Prop.
Hypothesis laws : codec_laws J exact.

(** X1.  After [handleLocationToggle] the analysis client is given the
    coordinates exactly when sharing was enabled and the position request
    succeeded; after disabling, or a refused request, it is given none,
    whatever was held before. *)
Theorem location_reaches_client (h : Host) (imageData : string + File) (st : State)
    (ls : gmap string string) (enabled : bool) (position : completion Location) :
  let st' := handleLocationToggle enabled position st in
  let seen :=
    match enabled, position with
    | true, Normal p => Some {| latitude := latitude p; longitude := longitude p |}
    | _, _ => None
    end in
  location st' = seen
  /\ handleImageAnalysis J h imageData st' ls
     = handleImageAnalysis J
         (with_client (fun img lang _ => analyzeImage h img lang seen) h) imageData st' ls.
Proof.
  destruct enabled, position as [p|e]; cbn zeta; split; reflexivity.
Qed.

(** X2.  Whatever a run of [handleImageAnalysis] left behind, [handleReset]
    brings the upload pane back with no error, result or image, and keeps
    the view and the location. *)
Theorem handleReset_after_analysis (h : Host) (imageData : string + File) (st : State)
    (ls : gmap string string) :
  let st' := handleReset (fst (handleImageAnalysis J h imageData st ls)) in
  upload_rendered st' = true
  /\ error_rendered st' = false
  /\ overlay_rendered st' = false
  /\ results_rendered st' = false
  /\ results st' = None /\ currentImage st' = None /\ error st' = None
  /\ currentView st' = currentView st
  /\ location st' = location st.
Proof.
  unfold handleImageAnalysis, handleImageAnalysis_begin, handleImageAnalysis_settle.
  cbn [location setCurrentImage setError setAnalyzing].
  destruct (analyzeImage h _ _ _) as [r|e]; cbn [bind].
  - destruct (saveToHistory J (quota h) (stamp h) _ r ls); cbn; repeat split.
  - cbn. repeat split.
Qed.

(** X3.  The scan view never shows two panes at once, and it shows none
    exactly when a result is present, no analysis is running and the
    current image is missing or the empty string. *)
Theorem panes_exclusive (st : State) :
  panes st <= 1
  /\ (panes st = 0 <->
      is_Some (results st) /\ analyzing st = false /\ truthy_opt (currentImage st) = false).
Proof.
  unfold panes, upload_rendered, overlay_rendered, results_rendered.
  destruct (analyzing st), (results st) as [r|], (truthy_opt (currentImage st)); cbn;
    (split; [lia|]); split; try lia; try (intros (H1 & H2 & H3); try discriminate);
    try (intros _; repeat split; eauto).
  all: try (destruct H1; discriminate).
Qed.

(** X4.  A run of [handleImageAnalysis], failed or not, leaves every
    [localStorage] key other than the history key as it was. *)
Theorem handleImageAnalysis_other_keys (h : Host) (imageData : string + File) (st : State)
    (ls : gmap string string) (k : string) :
  k <> history_key ->
  snd (handleImageAnalysis J h imageData st ls) !! k = ls !! k.
Proof.
  intros Hk.
  unfold handleImageAnalysis, handleImageAnalysis_begin, handleImageAnalysis_settle.
  cbn [location setCurrentImage setError setAnalyzing].
  destruct (analyzeImage h _ _ _) as [r|e]; cbn [bind]; [|reflexivity].
  destruct (saveToHistory J (quota h) (stamp h) _ r ls) as [ls1|e] eqn:Hsave; [|reflexivity].
  cbn. unfold saveToHistory in Hsave.
  destruct (parse_saved J _) as [v|e]; [|discriminate].
  destruct v; cbn in Hsave; try discriminate.
  unfold setItem in Hsave. destruct (quota h _ _ ls); [|discriminate].
  injection Hsave as <-. now apply lookup_insert_ne.
Qed.

(** X5.  After a successful run on an absent or well-formed history whose
    write the storage accepts, the image and the result on display are the
    ones in the newest history entry, and that entry's summary fields are
    those of the result. *)
Theorem displayed_is_stored (h : Host) (imageData : string + File) (st : State)
    (ls : gmap string string) (items : list js_value) (r : AnalysisResults) :
  let base64Image := match imageData with inl s => s | inr f => readAsDataURL h f end in
  let st' := fst (handleImageAnalysis J h imageData st ls) in
  let ls' := snd (handleImageAnalysis J h imageData st ls) in
  let kept := take 50 (ScanResult_to_js (historyItem (stamp h) base64Image r) :: items) in
  holds_history J exact ls items ->
  analyzeImage h base64Image (t h "language") (location st) = Normal r ->
  quota h history_key (JSON_stringify J (JArr kept)) ls = true ->
  exists newest rest,
    holds_history J exact ls' (ScanResult_to_js newest :: rest)
    /\ currentImage st' = Some (imageUrl newest)
    /\ results st' = Some (results_ newest)
    /\ cropName newest = crop_name r
    /\ diseaseDetected newest = disease_detected r
    /\ diseaseName newest = disease_name r
    /\ confidencePercentage newest = confidence_percentage r
    /\ results_ newest = r
    /\ id newest = uuid (stamp h).
Proof.
  intros base64Image st' ls' kept Hh Hok Hq. subst st' ls'.
  unfold handleImageAnalysis, handleImageAnalysis_begin, handleImageAnalysis_settle.
  fold base64Image. cbn [location setCurrentImage setError setAnalyzing].
  rewrite Hok. cbn [bind].
  destruct (saveToHistory_holds J exact laws (quota h) (stamp h) base64Image r ls items Hh)
    as [Heq Hh1].
  rewrite Heq. unfold setItem. fold kept. rewrite Hq. cbn.
  exists (historyItem (stamp h) base64Image r), (take 49 items).
  repeat split; try reflexivity; apply Hh1.
Qed.

End Shell.

Section ShellExamples.
Import App HistoryView AppControls.

Lemma handleImageAnalysis_other_keys_witness :
  "theme" <> history_key
  /\ snd (handleImageAnalysis RefCodec.codec Sample.host_ok (inl "img") Sample.idle
            (<["theme" := "dark"]> Sample.garbled)) !! "theme" = Some "dark"
  /\ snd (handleImageAnalysis RefCodec.codec Sample.host_ok (inl "img") Sample.idle
            {["theme" := "dark"]}) !! "theme" = Some "dark".
Proof.
  assert ("theme" <> history_key) as Hk by discriminate.
  split; [exact Hk|]. split.
  - rewrite (handleImageAnalysis_other_keys RefCodec.codec Sample.host_ok (inl "img")
               Sample.idle _ "theme" Hk). reflexivity.
  - rewrite (handleImageAnalysis_other_keys RefCodec.codec Sample.host_ok (inl "img")
               Sample.idle _ "theme" Hk). reflexivity.
Defined.

Lemma displayed_is_stored_witness :
  holds_history RefCodec.codec (fun _ => True) ∅ []
  /\ exists newest rest,
      holds_history RefCodec.codec (fun _ => True)
        (snd (handleImageAnalysis RefCodec.codec Sample.host_ok (inl "img") Sample.idle ∅))
        (ScanResult_to_js newest :: rest)
      /\ currentImage (fst (handleImageAnalysis RefCodec.codec Sample.host_ok (inl "img")
                              Sample.idle ∅)) = Some (imageUrl newest)
      /\ results_ newest = Sample.blight.
Proof.
  assert (holds_history RefCodec.codec (fun _ => True) ∅ []) as H0
    by (split; [reflexivity | constructor]).
  split; [exact H0|].
  destruct (displayed_is_stored RefCodec.codec (fun _ => True) RefCodec_laws
              Sample.host_ok (inl "img") Sample.idle ∅ [] Sample.blight H0 eq_refl eq_refl)
    as (newest & rest & Hh & Himg & _ & _ & _ & _ & _ & Hres & _).
  exists newest, rest. repeat split; try assumption; apply Hh.
Defined.

(** A client that answers only when it is given no coordinates: after
    location sharing is switched off it answers, whatever was held. *)
Example location_off_computed :
  let shy := with_client
               (fun _ _ loc => match loc with None => Normal Sample.blight
                                      | Some _ => Throw TypeError end) Sample.host_ok in
  let here := setLocation (Some {| latitude := 30; longitude := 31 |}) Sample.idle in
  error (fst (handleImageAnalysis RefCodec.codec shy (inl "img") here ∅))
    = Some "error.analysis"
  /\ error (fst (handleImageAnalysis RefCodec.codec shy (inl "img")
                   (handleLocationToggle false (Throw TypeError) here) ∅)) = None.
Proof. split; reflexivity. Qed.

(** The pane-less state: a result for an empty image string. *)
Example blank_scan_view :
  panes (fst (handleImageAnalysis RefCodec.codec Sample.host_ok (inl "") Sample.idle ∅)) = 0.
Proof. reflexivity. Qed.

End ShellExamples.

(* ===================================================================== *)
(** ** The camera component: what each operation leaves alone            *)
(* ===================================================================== *)

Section Frames.
Import Canvas ImageUpload.
Context {A : Type} (Q : Sys -> A).
Hypothesis Q_state : forall st s, Q (with_state st s) = Q s.
Hypothesis Q_streams : forall ss s, Q (with_streams ss s) = Q s.
Hypothesis Q_videos : forall vs s, Q (with_videos vs s) = Q s.
Hypothesis Q_closures : forall cs s, Q (with_closures cs s) = Q s.
Hypothesis Q_effect : forall e s, Q (with_effect e s) = Q s.
Hypothesis Q_videoRef : forall r s, Q (with_videoRef r s) = Q s.

Lemma untouched_set_state (i : nat) (f : State -> State) (s : Sys) :
  Q (set_state i f s) = Q s.
Proof.
  unfold set_state.
  destruct (mounted s && Nat.eqb i (instance s)); [apply Q_state | reflexivity].
Qed.

Lemma untouched_stop_tracks_opt (o : option nat) (s : Sys) : Q (stop_tracks_opt o s) = Q s.
Proof. destruct o; [apply Q_streams | reflexivity]. Qed.

Lemma untouched_on_video (o : option nat) (f : Video -> Video) (s : Sys) :
  Q (on_video o f s) = Q s.
Proof. destruct o; [apply Q_videos | reflexivity]. Qed.

Lemma untouched_cleanup (c : Closure) (s : Sys) : Q (cleanup c s) = Q s.
Proof.
  unfold cleanup.
  now rewrite untouched_set_state, untouched_on_video, untouched_stop_tracks_opt,
    untouched_set_state.
Qed.

Lemma untouched_setupStream_start (eid : nat) (c : Closure) (s : Sys) :
  Q (setupStream_start eid c s) = Q s.
Proof.
  unfold setupStream_start. destruct (negb _ || negb _); [reflexivity|].
  rewrite Q_closures. destruct (seen_stream c).
  - unfold stop_tracks. now rewrite untouched_set_state, Q_streams, untouched_set_state.
  - apply untouched_set_state.
Qed.

Lemma untouched_run_effect (st : State) (s : Sys) : Q (run_effect st s) = Q s.
Proof.
  unfold run_effect. now rewrite untouched_setupStream_start, Q_effect, Q_closures.
Qed.

Lemma untouched_render_video (s : Sys) : Q (render_video s) = Q s.
Proof.
  unfold render_video. destruct (showCamera (state s)), (videoRef s);
    rewrite ?Q_videoRef, ?Q_videos; reflexivity.
Qed.

Lemma untouched_commit (s : Sys) : Q (commit s) = Q s.
Proof.
  unfold commit. destruct (mounted s); [|reflexivity].
  destruct (effect (render_video s) ≫= _) as [c|].
  - destruct (same_deps c _); [apply untouched_render_video|].
    now rewrite untouched_run_effect, untouched_cleanup, untouched_render_video.
  - now rewrite untouched_run_effect, untouched_render_video.
Qed.

End Frames.

Section StateFrames.
Import Canvas ImageUpload.
Context {A : Type} (P : State -> A).
Hypothesis P_loading : forall b st, P (setIsCameraLoading b st) = P st.
Hypothesis P_stream : forall o st, P (setStream o st) = P st.

Lemma kept_set_state (i : nat) (f : State -> State) (s : Sys) :
  (forall st, P (f st) = P st) -> P (state (set_state i f s)) = P (state s).
Proof.
  intros Hf. unfold set_state.
  destruct (mounted s && Nat.eqb i (instance s)); [apply Hf | reflexivity].
Qed.

Lemma kept_cleanup (c : Closure) (s : Sys) : P (state (cleanup c s)) = P (state s).
Proof.
  unfold cleanup. rewrite kept_set_state.
  - rewrite (untouched_on_video state), (untouched_stop_tracks_opt state) by reflexivity.
    apply kept_set_state. apply P_loading.
  - intros st. destruct (bool_decide _); [apply P_stream | reflexivity].
Qed.

Lemma kept_setupStream_start (eid : nat) (c : Closure) (s : Sys) :
  P (state (setupStream_start eid c s)) = P (state s).
Proof.
  unfold setupStream_start. destruct (negb _ || negb _); [reflexivity|].
  cbn [state with_closures]. destruct (seen_stream c).
  - rewrite kept_set_state by (intros; apply P_stream).
    unfold stop_tracks. cbn [state with_streams]. apply kept_set_state. intros; apply P_loading.
  - apply kept_set_state. intros; apply P_loading.
Qed.

Lemma kept_run_effect (st : State) (s : Sys) : P (state (run_effect st s)) = P (state s).
Proof. unfold run_effect. now rewrite kept_setupStream_start. Qed.

Lemma kept_commit (s : Sys) : P (state (commit s)) = P (state s).
Proof.
  unfold commit. destruct (mounted s); [|reflexivity].
  assert (state (render_video s) = state s) as Hr
    by (apply (untouched_render_video state); reflexivity).
  destruct (effect (render_video s) ≫= _) as [c|].
  - destruct (same_deps c _); [now rewrite Hr|].
    now rewrite kept_run_effect, kept_cleanup, Hr.
  - now rewrite kept_run_effect, Hr.
Qed.

End StateFrames.

(* ===================================================================== *)
(** ** The camera component: the effect schedule comes to rest           *)
(* ===================================================================== *)

Section Settled.
Import Canvas ImageUpload CameraProps.
Variable toDataURL : string -> Canvas -> string.

Lemma with_videoRef_id (s : Sys) (o : option nat) :
  videoRef s = o -> with_videoRef o s = s.
Proof. destruct s. cbn. now intros ->. Qed.

Lemma render_video_fixed (s : Sys) : video_in_step s = true -> render_video s = s.
Proof.
  unfold video_in_step, render_video.
  destruct (showCamera (state s)), (videoRef s) as [vid|] eqn:Hv; cbn;
    try discriminate; try reflexivity.
  intros _. now apply with_videoRef_id.
Qed.

Lemma video_in_step_render (s : Sys) : video_in_step (render_video s) = true.
Proof.
  unfold video_in_step, render_video.
  destruct (showCamera (state s)) eqn:Hs, (videoRef s) as [vid|] eqn:Hv; cbn;
    rewrite ?Hs, ?Hv; reflexivity.
Qed.

Lemma video_in_step_same (s r : Sys) :
  showCamera (state r) = showCamera (state s) ->
  videoRef r = videoRef s ->
  video_in_step s = true -> video_in_step r = true.
Proof. unfold video_in_step. now intros -> ->. Qed.

Lemma settled_intro (s : Sys) (c : Closure) :
  mounted s = true ->
  video_in_step s = true ->
  effect s ≫= (fun eid => closures s !! eid) = Some c ->
  same_deps c (state s) = true ->
  commit s = s.
Proof.
  intros Hm Hv Hc Hd. unfold commit. rewrite Hm, (render_video_fixed s Hv), Hc, Hd.
  reflexivity.
Qed.

Lemma run_effect_closure (st : State) (s : Sys) :
  effect (run_effect st s) = Some (length (closures s))
  /\ exists c, closures (run_effect st s) !! length (closures s) = Some c
               /\ dep_showCamera c = showCamera st
               /\ dep_facingMode c = facingMode st.
Proof.
  unfold run_effect. split.
  - now rewrite (untouched_setupStream_start effect).
  - unfold setupStream_start. cbn [dep_showCamera videoElement owner seen_stream].
    destruct (negb _ || negb _).
    + eexists. split; [apply list_lookup_middle; reflexivity|]. split; reflexivity.
    + cbn [closures with_closures].
      match goal with |- context [alter _ _ (closures ?x)] =>
        assert (closures x = closures s ++
                  [{| owner := instance s; dep_showCamera := showCamera st;
                      dep_facingMode := facingMode st; seen_stream := stream st;
                      videoElement := videoRef s; currentStream := None;
                      awaiting := false |}]) as ->
      end.
      { destruct (stream st); unfold stop_tracks;
          rewrite ?(untouched_set_state closures), ?(untouched_set_state closures)
            by reflexivity; cbn; rewrite ?(untouched_set_state closures) by reflexivity;
          reflexivity. }
      rewrite alter_snoc. eexists. split; [apply list_lookup_middle; reflexivity|].
      split; reflexivity.
Qed.

Lemma run_effect_settled (st : State) (s : Sys) :
  mounted s = true ->
  video_in_step s = true ->
  showCamera (state s) = showCamera st ->
  facingMode (state s) = facingMode st ->
  commit (run_effect st s) = run_effect st s.
Proof.
  intros Hm Hv Hsc Hfm.
  destruct (run_effect_closure st s) as (Heff & c & Hc & Hd1 & Hd2).
  apply (settled_intro _ c).
  - now rewrite (untouched_run_effect mounted).
  - apply (video_in_step_same s); [| |exact Hv].
    + apply (kept_run_effect showCamera); reflexivity.
    + now apply (untouched_run_effect videoRef).
  - rewrite Heff. exact Hc.
  - unfold same_deps.
    rewrite (kept_run_effect showCamera), (kept_run_effect facingMode) by reflexivity.
    rewrite Hd1, Hd2, Hsc, Hfm.
    destruct (showCamera st), (facingMode st); reflexivity.
Qed.

Lemma commit_idem (s : Sys) : commit (commit s) = commit s.
Proof.
  unfold commit at 2 3. destruct (mounted s) eqn:Hm;
    [|unfold commit; now rewrite Hm].
  assert (mounted (render_video s) = true) as Hm1
    by (now rewrite (untouched_render_video mounted)).
  pose proof (video_in_step_render s) as Hv1.
  destruct (effect (render_video s) ≫= _) as [c|] eqn:Hc.
  - destruct (same_deps c (state (render_video s))) eqn:Hd.
    + now apply (settled_intro _ c).
    + apply run_effect_settled.
      * now rewrite (untouched_cleanup mounted).
      * apply (video_in_step_same (render_video s)); [| |exact Hv1].
        -- apply (kept_cleanup showCamera); reflexivity.
        -- now apply (untouched_cleanup videoRef).
      * apply (kept_cleanup showCamera); reflexivity.
      * apply (kept_cleanup facingMode); reflexivity.
  - now apply run_effect_settled.
Qed.

Lemma commit_picture (vs : list Video) (s : Sys) :
  commit s = s -> commit (with_videos vs s) = with_videos vs s.
Proof.
  intros Hs. destruct (mounted s) eqn:Hm; [|unfold commit; cbn; now rewrite Hm].
  destruct (settled_inv s Hm Hs) as (Hr & c & Hc & Hd).
  apply (settled_intro _ c); try assumption.
  rewrite <- Hr. cbn. apply (video_in_step_render s).
Qed.

Lemma step_settled (s : Sys) (ev : Event) :
  commit s = s -> commit (step toDataURL s ev) = step toDataURL s ev.
Proof.
  intros Hs. destruct ev; cbn [step];
    repeat match goal with
           | |- context [if ?b then _ else _] => destruct b
           | |- context [match pending ?e ?x with _ => _ end] => destruct (pending e x)
           | |- context [match streaming ?e ?x with _ => _ end] => destruct (streaming e x)
           end;
    first [ exact Hs
          | apply commit_idem
          | unfold mount; apply commit_idem
          | now apply commit_picture
          | reflexivity ].
Qed.

(** X6.  After any sequence of events the component is at rest: rendering
    again changes nothing, the [<video>] element is there exactly while the
    camera view is, and no effect is left to run. *)
Theorem reachable_settled (evs : list Event) :
  let s := run toDataURL boot evs in
  commit s = s /\ (mounted s = true -> video_in_step s = true).
Proof.
  cbn zeta.
  assert (commit (run toDataURL boot evs) = run toDataURL boot evs) as Hs.
  { unfold run. assert (commit boot = boot) as H0 by reflexivity.
    revert H0. generalize boot. induction evs as [|ev evs IH]; intros s H0; [exact H0|].
    cbn. apply IH. now apply step_settled. }
  split; [exact Hs|]. intros Hm.
  destruct (settled_inv _ Hm Hs) as (Hr & _). rewrite <- Hr. apply video_in_step_render.
Qed.

End Settled.

(* ===================================================================== *)
(** ** The camera component: what no event does                          *)
(* ===================================================================== *)

Section Never.
Import Canvas ImageUpload CameraProps.
Variable toDataURL : string -> Canvas -> string.

Lemma torch_flag_set_state (i : nat) (f : State -> State) (s : Sys) :
  (forall st, isTorchOn (f st) = isTorchOn st) ->
  isTorchOn (state (set_state i f s)) = isTorchOn (state s).
Proof. apply (kept_set_state isTorchOn). Qed.

Lemma torch_flag_commit (s : Sys) : isTorchOn (state (commit s)) = isTorchOn (state s).
Proof. apply (kept_commit isTorchOn); reflexivity. Qed.

Lemma torch_flag_catch (c : Closure) (s : Sys) :
  isTorchOn (state (setupStream_catch c s)) = isTorchOn (state s).
Proof.
  unfold setupStream_catch. now rewrite !torch_flag_set_state by reflexivity.
Qed.

(** X7.  [isTorchOn] is written by the torch toggle alone: no other event
    on a mounted component changes it, not even the replacement of the
    stream, so after a switch of camera the icon can show a torch that the
    new track does not have on. *)
Theorem isTorchOn_only_by_toggle (s : Sys) (ev : Event) :
  match ev with
  | ClickTorch _ | Mount => True
  | _ => isTorchOn (state (step toDataURL s ev)) = isTorchOn (state s)
  end.
Proof.
  destruct ev; try exact I; cbn [step].
  - (* Unmount *)
    destruct (mounted s); [|reflexivity]. unfold unmount. cbn [state].
    destruct (effect s ≫= _); [|reflexivity].
    apply (kept_cleanup isTorchOn); reflexivity.
  - destruct (closed_controls s); [|reflexivity]. rewrite torch_flag_commit.
    unfold handleStartCameraClick. now rewrite !torch_flag_set_state by reflexivity.
  - destruct (closed_controls s); [|reflexivity]. rewrite torch_flag_commit.
    unfold handleFile. now destruct (String.prefix _ _).
  - destruct (camera_controls s); [|reflexivity]. rewrite torch_flag_commit.
    unfold toggleCamera. now rewrite torch_flag_set_state by reflexivity.
  - destruct (camera_controls s); [|reflexivity]. rewrite torch_flag_commit.
    unfold capturePhoto. destruct (current_video s) as [v|]; [|reflexivity].
    destruct (Nat.ltb _ _); [reflexivity|]. destruct (_ || _); [reflexivity|].
    destruct ctx_ok; [|reflexivity].
    unfold stopCamera. now rewrite torch_flag_set_state by reflexivity.
  - destruct (camera_controls s); [|reflexivity]. rewrite torch_flag_commit.
    unfold stopCamera. now rewrite torch_flag_set_state by reflexivity.
  - destruct (pending eid s) as [c|]; [|reflexivity]. rewrite torch_flag_commit.
    unfold setupStream_granted. destruct (map new_track caps) as [|track tracks].
    + now rewrite torch_flag_catch.
    + rewrite (untouched_on_video state) by reflexivity.
      now rewrite !torch_flag_set_state by reflexivity.
  - destruct (pending eid s) as [c|]; [|reflexivity]. rewrite torch_flag_commit.
    unfold setupStream_denied. now rewrite torch_flag_catch.
  - destruct (streaming eid s) as [c|]; [|reflexivity]. rewrite torch_flag_commit.
    unfold setupStream_played. destruct ok; [|reflexivity].
    now rewrite torch_flag_set_state by reflexivity.
  - destruct (streaming eid s) as [c|]; [|reflexivity]. rewrite torch_flag_commit.
    unfold onloadedmetadata_played. destruct ok;
      now rewrite torch_flag_set_state by reflexivity.
  - reflexivity.
Qed.

Lemma log_commit (s : Sys) : log (commit s) = log s.
Proof. apply (untouched_commit log); reflexivity. Qed.

Lemma log_set_state (i : nat) (f : State -> State) (s : Sys) :
  log (set_state i f s) = log s.
Proof. apply (untouched_set_state log); reflexivity. Qed.

Lemma log_catch (c : Closure) (s : Sys) :
  exists msg, log (setupStream_catch c s) = log s ++ [Alert msg].
Proof. unfold setupStream_catch. rewrite !log_set_state. now eexists. Qed.

Lemma step_log (s : Sys) (ev : Event) :
  exists es, log (step toDataURL s ev) = log s ++ es /\ Forall (honest toDataURL) es.
Proof.
  assert (forall x : Sys, log x = log s ->
            exists es, log x = log s ++ es /\ Forall (honest toDataURL) es) as Hsame.
  { intros x ->. exists []. now rewrite app_nil_r. }
  assert (forall (x : Sys) e, log x = log s ++ [e] -> honest toDataURL e ->
            exists es, log x = log s ++ es /\ Forall (honest toDataURL) es) as Hone.
  { intros x e -> He. exists [e]. split; [reflexivity | now constructor]. }
  destruct ev; cbn [step].
  - destruct (mounted s); [now apply Hsame|]. apply Hsame. unfold mount. now rewrite log_commit.
  - destruct (mounted s); [|now apply Hsame]. apply Hsame. unfold unmount. cbn [log].
    destruct (effect s ≫= _); [|reflexivity]. apply (untouched_cleanup log); reflexivity.
  - destruct (closed_controls s); [|now apply Hsame]. apply Hsame. rewrite log_commit.
    unfold handleStartCameraClick. now rewrite !log_set_state.
  - destruct (closed_controls s); [|now apply Hsame]. unfold handleFile.
    destruct (String.prefix _ _) eqn:Hp.
    + eapply Hone; [now rewrite log_commit | exact Hp].
    + eapply Hone; [now rewrite log_commit | exact I].
  - destruct (camera_controls s); [|now apply Hsame]. apply Hsame. rewrite log_commit.
    unfold toggleCamera. now rewrite log_set_state.
  - destruct (camera_controls s); [|now apply Hsame]. unfold toggleTorch.
    destruct (stream (state s)) as [sid|]; [|apply Hsame; now rewrite log_commit].
    destruct (streams s !! sid) as [[|track rest]|];
      try (eapply Hone; [now rewrite log_commit | exact I]).
    destruct (bool_decide _); [|eapply Hone; [now rewrite log_commit | exact I]].
    destruct apply_ok; [|eapply Hone; [now rewrite log_commit | exact I]].
    apply Hsame. now rewrite log_commit, log_set_state.
  - destruct (camera_controls s); [|now apply Hsame]. unfold capturePhoto.
    destruct (current_video s) as [v|];
      [|eapply Hone; [now rewrite log_commit | exact I]].
    destruct (Nat.ltb _ _); [eapply Hone; [now rewrite log_commit | exact I]|].
    destruct (_ || _); [eapply Hone; [now rewrite log_commit | exact I]|].
    destruct ctx_ok; [|eapply Hone; [now rewrite log_commit | exact I]].
    eapply Hone.
    + rewrite log_commit. unfold stopCamera. now rewrite log_set_state.
    + cbn. now eexists.
  - destruct (camera_controls s); [|now apply Hsame]. apply Hsame. rewrite log_commit.
    unfold stopCamera. now rewrite log_set_state.
  - destruct (pending eid s) as [c|]; [|now apply Hsame]. unfold setupStream_granted.
    destruct (map new_track caps) as [|track tracks].
    + destruct (log_catch c (with_closures
        (alter (fun c0 => set_currentStream (Some (length (streams s))) (set_awaiting false c0))
           eid (closures (with_streams (streams s ++ [[]]) s)))
        (with_streams (streams s ++ [[]]) s))) as (msg & Hm).
      eapply Hone; [rewrite log_commit; exact Hm | exact I].
    + apply Hsame. rewrite log_commit.
      rewrite (untouched_on_video log) by reflexivity. now rewrite !log_set_state.
  - destruct (pending eid s) as [c|]; [|now apply Hsame]. unfold setupStream_denied.
    destruct (log_catch c (with_closures (alter (set_awaiting false) eid (closures s)) s))
      as (msg & Hm).
    eapply Hone; [rewrite log_commit; exact Hm | exact I].
  - destruct (streaming eid s) as [c|]; [|now apply Hsame]. apply Hsame. rewrite log_commit.
    unfold setupStream_played. destruct ok; [apply log_set_state | reflexivity].
  - destruct (streaming eid s) as [c|]; [|now apply Hsame]. apply Hsame. rewrite log_commit.
    unfold onloadedmetadata_played. destruct ok; apply log_set_state.
  - now apply Hsame.
Qed.

Lemma run_log (s : Sys) (evs : list Event) :
  Forall (honest toDataURL) (log s) ->
  Forall (honest toDataURL) (log (run toDataURL s evs)).
Proof.
  revert s. induction evs as [|ev evs IH]; intros s Hs; [exact Hs|].
  cbn [run fold_left]. apply IH.
  destruct (step_log s ev) as (es & -> & Hes). apply Forall_app. now split.
Qed.

(** X8.  Whatever the user and the browser do, every [onImageSelected]
    call the component ever makes carries either a file whose type starts
    with [image/] or the JPEG data URL of a canvas: nothing else can reach
    the analysis. *)
Theorem only_images_selected (evs : list Event) :
  Forall (honest toDataURL) (log (run toDataURL boot evs)).
Proof. apply run_log. constructor. Qed.

(** *** Tracks are never revived *)

Lemma never_revived_refl (ss : list (list Track)) : never_revived ss ss.
Proof.
  intros sid tracks H. exists tracks. split; [exact H|].
  apply Forall2_same_length_lookup_2; [reflexivity|].
  intros i a b Ha Hb. now simplify_eq.
Qed.

Lemma never_revived_trans (a b c : list (list Track)) :
  never_revived a b -> never_revived b c -> never_revived a c.
Proof.
  intros Hab Hbc sid tracks H.
  destruct (Hab _ _ H) as (t1 & H1 & F1). destruct (Hbc _ _ H1) as (t2 & H2 & F2).
  exists t2. split; [exact H2|].
  clear -F1 F2. revert t2 F2. induction F1; intros t2 F2; inversion F2; subst; constructor; auto.
Qed.

Lemma never_revived_alter (f : Track -> Track) (sid : nat) (ss : list (list Track)) :
  (forall tr, live (f tr) = true -> live tr = true) ->
  never_revived ss (alter (map f) sid ss).
Proof.
  intros Hf i tracks H. destruct (decide (i = sid)) as [->|Hne].
  - exists (map f tracks). split.
    + now rewrite list_lookup_alter_eq, H.
    + clear H. induction tracks; constructor; auto.
  - rewrite list_lookup_alter_ne by congruence.
    now apply never_revived_refl.
Qed.

Lemma never_revived_snoc (ss : list (list Track)) (tracks : list Track) :
  never_revived ss (ss ++ [tracks]).
Proof.
  intros i t H. rewrite lookup_app_l by (now apply lookup_lt_Some in H).
  now apply never_revived_refl.
Qed.

Lemma never_revived_set_state (i : nat) (f : State -> State) (s : Sys) :
  streams (set_state i f s) = streams s.
Proof. apply (untouched_set_state streams); reflexivity. Qed.

Lemma never_revived_stop_tracks_opt (o : option nat) (s : Sys) :
  never_revived (streams s) (streams (stop_tracks_opt o s)).
Proof.
  destruct o; [|apply never_revived_refl]. cbn. now apply never_revived_alter.
Qed.

Lemma never_revived_cleanup (c : Closure) (s : Sys) :
  never_revived (streams s) (streams (cleanup c s)).
Proof.
  unfold cleanup. rewrite never_revived_set_state.
  rewrite (untouched_on_video streams) by reflexivity.
  eapply never_revived_trans; [|apply never_revived_stop_tracks_opt].
  rewrite never_revived_set_state. apply never_revived_refl.
Qed.

Lemma never_revived_run_effect (st : State) (s : Sys) :
  never_revived (streams s) (streams (run_effect st s)).
Proof.
  unfold run_effect, setupStream_start. cbn [dep_showCamera videoElement owner seen_stream].
  destruct (negb _ || negb _); [apply never_revived_refl|].
  cbn [streams with_closures]. destruct (stream st) as [sid|].
  - rewrite never_revived_set_state. unfold stop_tracks. cbn [streams with_streams].
    rewrite never_revived_set_state. now apply never_revived_alter.
  - rewrite never_revived_set_state. apply never_revived_refl.
Qed.

Lemma never_revived_commit (s : Sys) : never_revived (streams s) (streams (commit s)).
Proof.
  unfold commit. destruct (mounted s); [|apply never_revived_refl].
  assert (streams (render_video s) = streams s) as Hr
    by (apply (untouched_render_video streams); reflexivity).
  rewrite <- Hr at 1.
  destruct (effect (render_video s) ≫= _) as [c|].
  - destruct (same_deps c _); [apply never_revived_refl|].
    eapply never_revived_trans; [apply never_revived_cleanup | apply never_revived_run_effect].
  - apply never_revived_run_effect.
Qed.

Lemma never_revived_step (s : Sys) (ev : Event) :
  never_revived (streams s) (streams (step toDataURL s ev)).
Proof.
  assert (forall x : Sys, streams x = streams s ->
            never_revived (streams s) (streams (commit x))) as Hsame.
  { intros x Hx. rewrite <- Hx. apply never_revived_commit. }
  destruct ev; cbn [step]; try apply never_revived_refl.
  - destruct (mounted s); [apply never_revived_refl|]. unfold mount. now apply Hsame.
  - destruct (mounted s); [|apply never_revived_refl]. unfold unmount. cbn [streams].
    destruct (effect s ≫= _); [apply never_revived_cleanup | apply never_revived_refl].
  - destruct (closed_controls s); [|apply never_revived_refl]. apply Hsame.
    unfold handleStartCameraClick. now rewrite !never_revived_set_state.
  - destruct (closed_controls s); [|apply never_revived_refl]. apply Hsame.
    unfold handleFile. now destruct (String.prefix _ _).
  - destruct (camera_controls s); [|apply never_revived_refl]. apply Hsame.
    unfold toggleCamera. now rewrite never_revived_set_state.
  - destruct (camera_controls s); [|apply never_revived_refl].
    eapply never_revived_trans; [|apply never_revived_commit].
    unfold toggleTorch. destruct (stream (state s)) as [sid|]; [|apply never_revived_refl].
    destruct (streams s !! sid) as [[|track rest]|] eqn:Hl; try apply never_revived_refl.
    destruct (bool_decide _); [|apply never_revived_refl].
    destruct apply_ok; [|apply never_revived_refl].
    rewrite never_revived_set_state. cbn [streams with_streams].
    intros i tracks H. destruct (decide (i = sid)) as [->|Hne].
    + rewrite list_lookup_insert_eq by (now apply lookup_lt_Some in Hl).
      eexists. split; [reflexivity|]. rewrite Hl in H. injection H as <-.
      constructor; [now cbn|].
      apply Forall2_same_length_lookup_2; [reflexivity|].
      intros j a b Ha Hb. now simplify_eq.
    + rewrite list_lookup_insert_ne by congruence. now apply never_revived_refl.
  - destruct (camera_controls s); [|apply never_revived_refl]. apply Hsame.
    unfold capturePhoto. destruct (current_video s) as [v|]; [|reflexivity].
    destruct (Nat.ltb _ _); [reflexivity|]. destruct (_ || _); [reflexivity|].
    destruct ctx_ok; [|reflexivity]. unfold stopCamera. now rewrite never_revived_set_state.
  - destruct (camera_controls s); [|apply never_revived_refl]. apply Hsame.
    unfold stopCamera. now rewrite never_revived_set_state.
  - destruct (pending eid s) as [c|]; [|apply never_revived_refl].
    eapply never_revived_trans; [|apply never_revived_commit].
    unfold setupStream_granted. destruct (map new_track caps) as [|track tracks].
    + unfold setupStream_catch. rewrite !never_revived_set_state. cbn [streams emit with_closures with_streams].
      apply never_revived_snoc.
    + rewrite (untouched_on_video streams) by reflexivity.
      rewrite !never_revived_set_state. cbn [streams with_closures with_streams].
      apply never_revived_snoc.
  - destruct (pending eid s) as [c|]; [|apply never_revived_refl]. apply Hsame.
    unfold setupStream_denied, setupStream_catch. now rewrite !never_revived_set_state.
  - destruct (streaming eid s) as [c|]; [|apply never_revived_refl]. apply Hsame.
    unfold setupStream_played. destruct ok; [apply never_revived_set_state | reflexivity].
  - destruct (streaming eid s) as [c|]; [|apply never_revived_refl]. apply Hsame.
    unfold onloadedmetadata_played. destruct ok; apply never_revived_set_state.
Qed.

(** X9.  A stream keeps its identifier and its number of tracks for ever,
    and a track that has been stopped is never live again: the component
    re-opens the camera only by asking for a new stream. *)
Theorem stopped_tracks_stay_stopped (s : Sys) (evs : list Event) :
  never_revived (streams s) (streams (run toDataURL s evs)).
Proof.
  revert s. induction evs as [|ev evs IH]; intros s; [apply never_revived_refl|].
  cbn [run fold_left]. eapply never_revived_trans; [apply never_revived_step | apply IH].
Qed.

End Never.

(* ===================================================================== *)
(** ** The camera component: what the buttons and the browser's answers do *)
(* ===================================================================== *)

Section CameraSteps.
Import Canvas ImageUpload CameraProps.
Variable toDataURL : string -> Canvas -> string.

Lemma controls_inv (s : Sys) :
  camera_controls s = true ->
  mounted s = true /\ showCamera (state s) = true /\ isCameraLoading (state s) = false.
Proof.
  unfold camera_controls. intros H. apply andb_prop in H as [H Hl].
  apply andb_prop in H as [Hm Hs]. apply negb_true_iff in Hl. auto.
Qed.

Lemma set_state_at (i : nat) (f : State -> State) (x : Sys) :
  mounted x = true -> instance x = i -> set_state i f x = with_state (f (state x)) x.
Proof. intros Hm <-. unfold set_state. now rewrite Hm, Nat.eqb_refl. Qed.

(** A run of the effect with the camera view closed returns at once. *)
Lemma run_effect_closed (st : State) (s : Sys) :
  showCamera st = false ->
  run_effect st s
  = with_effect (Some (length (closures s)))
      (with_closures
         (closures s ++
            [{| owner := instance s; dep_showCamera := false; dep_facingMode := facingMode st;
                seen_stream := stream st; videoElement := videoRef s; currentStream := None;
                awaiting := false |}]) s).
Proof.
  intros Hs. unfold run_effect, setupStream_start. cbn [dep_showCamera]. now rewrite Hs.
Qed.

Lemma same_deps_shown (c : Closure) (st : State) (b : bool) :
  same_deps c st = true -> showCamera st = negb b ->
  same_deps c (setShowCamera b st) = false.
Proof.
  unfold same_deps. cbn. intros H Hs. apply andb_prop in H as [H _]. rewrite Hs in H.
  destruct (dep_showCamera c), b; try discriminate; reflexivity.
Qed.

Lemma pending_snoc_idle (cs : list Closure) (c0 : Closure) (e : nat) (x y : Sys) :
  closures x = cs ++ [c0] -> closures y = cs -> awaiting c0 = false ->
  pending e x = pending e y.
Proof.
  intros Hx Hy H0. unfold pending. rewrite Hx, Hy.
  destruct (decide (e < length cs)) as [Hlt|Hge].
  - now rewrite lookup_app_l.
  - rewrite (lookup_ge_None_2 cs e) by lia.
    destruct (decide (e = length cs)) as [->|Hne].
    + rewrite list_lookup_middle by reflexivity. now rewrite H0.
    + rewrite lookup_ge_None_2; [reflexivity|]. rewrite length_app. cbn. lia.
Qed.

Lemma active_streams_stop (x y : Sys) (sid : nat) :
  streams x = alter (map stop) sid (streams y) ->
  forall i, i ∈ active_streams x <-> i ∈ active_streams y /\ i <> sid.
Proof.
  intros H i. rewrite !elem_of_active_streams, H. split.
  - intros (tr & Hl & Ha). destruct (decide (i = sid)) as [->|Hne].
    + rewrite list_lookup_alter_eq in Hl. apply fmap_Some in Hl as (tr0 & _ & ->).
      now rewrite active_stopped in Ha.
    + rewrite list_lookup_alter_ne in Hl by congruence. eauto.
  - intros ((tr & Hl & Ha) & Hne). exists tr.
    now rewrite list_lookup_alter_ne by congruence.
Qed.

(** The whole of a click on the close button, on a view that shows the
    stream of the current effect run. *)
Lemma ClickClose_live (s : Sys) (eid : nat) (c : Closure) :
  camera_controls s = true ->
  effect s = Some eid ->
  closures s !! eid = Some c ->
  same_deps c (state s) = true ->
  owner c = instance s ->
  step toDataURL s ClickClose
  = run_effect (setShowCamera false (state s))
      (cleanup c (with_videoRef None (with_state (setShowCamera false (state s)) s))).
Proof.
  intros Hctl Heff Hc Hdeps Hown. cbn [step]. rewrite Hctl.
  destruct (controls_inv s Hctl) as (Hm & Hshow & Hload).
  unfold stopCamera. rewrite (set_state_own _ s Hm).
  unfold commit. cbn [mounted with_state]. rewrite Hm.
  unfold render_video. cbn [state with_state showCamera setShowCamera].
  cbn [effect closures with_videoRef with_state state]. rewrite Heff.
  cbn [mbind option_bind]. rewrite Hc.
  now rewrite (same_deps_shown c (state s) false Hdeps Hshow).
Qed.

(** X10.  Closing the camera view releases the camera: every track of the
    stream on show is stopped and no other stream is touched, the state
    forgets the stream, the [<video>] element is gone, and no new request
    for a camera is made. *)
Theorem close_releases_camera (s : Sys) (eid sid : nat) (c : Closure) :
  camera_controls s = true ->
  effect s = Some eid ->
  closures s !! eid = Some c ->
  same_deps c (state s) = true ->
  owner c = instance s ->
  currentStream c = Some sid ->
  stream (state s) = Some sid ->
  let s' := step toDataURL s ClickClose in
  streams s' = alter (map stop) sid (streams s)
  /\ (forall i, i ∈ active_streams s' <-> i ∈ active_streams s /\ i <> sid)
  /\ state s' = setStream None (setIsCameraLoading false (setShowCamera false (state s)))
  /\ videoRef s' = None
  /\ (forall e, pending e s' = pending e s)
  /\ log s' = log s.
Proof.
  intros Hctl Heff Hc Hdeps Hown Hcur Hst s'. subst s'.
  rewrite (ClickClose_live s eid c Hctl Heff Hc Hdeps Hown).
  destruct (controls_inv s Hctl) as (Hm & Hshow & Hload).
  rewrite run_effect_closed by reflexivity.
  rewrite cleanup_own by (cbn; assumption). rewrite Hcur.
  cbn [stop_tracks_opt state with_state with_videoRef stream setIsCameraLoading setShowCamera].
  rewrite Hst. rewrite bool_decide_eq_true_2 by reflexivity.
  assert (forall o f x, streams (on_video o f x) = streams x) as Hov by (now intros [?|] ? ?).
  assert (forall o f x, closures (on_video o f x) = closures x) as Hoc by (now intros [?|] ? ?).
  assert (forall o f x, videoRef (on_video o f x) = videoRef x) as Hor by (now intros [?|] ? ?).
  assert (forall o f x, log (on_video o f x) = log x) as Hol by (now intros [?|] ? ?).
  cbn [streams state videoRef log with_effect with_closures with_state].
  rewrite Hov, Hor, Hol. cbn [streams videoRef log stop_tracks with_streams with_videoRef with_state].
  split; [reflexivity|]. split; [|split; [reflexivity|split; [reflexivity|split; [|reflexivity]]]].
  - apply active_streams_stop. cbn [streams with_effect with_closures with_state].
    now rewrite Hov.
  - intros e. eapply pending_snoc_idle.
    + cbn [closures with_effect with_closures]. reflexivity.
    + cbn [closures with_state]. rewrite Hoc. reflexivity.
    + reflexivity.
Qed.

(** X11.  A successful capture is the hand-over of the picture followed by
    exactly what the close button does. *)
Theorem capture_then_close (s : Sys) (v : Video) :
  camera_controls s = true ->
  current_video s = Some v ->
  ready v = true ->
  step toDataURL s (ClickCapture true)
  = emit (ImageSelected (inl (toDataURL "image/jpeg" (capture_canvas (facingMode (state s)) v))))
      (step toDataURL s ClickClose).
Proof.
  intros Hctl Hv Hr. cbn [step]. rewrite Hctl.
  unfold capturePhoto. rewrite Hv.
  unfold ready in Hr. apply andb_prop in Hr as [H1 H2].
  apply negb_true_iff in H1, H2. rewrite H1, H2.
  unfold stopCamera. cbn [instance emit].
  now rewrite set_state_emit, commit_emit.
Qed.

Lemma pending_inv (s : Sys) (eid : nat) (c : Closure) :
  pending eid s = Some c -> closures s !! eid = Some c /\ awaiting c = true.
Proof.
  unfold pending. destruct (closures s !! eid) as [c0|]; [|discriminate].
  destruct (awaiting c0) eqn:Ha; [|discriminate]. intros H. now simplify_eq.
Qed.

(** The whole of a refusal that reaches the current effect run. *)
Lemma Denied_opening (s : Sys) (eid : nat) (c : Closure) :
  mounted s = true ->
  effect s = Some eid ->
  pending eid s = Some c ->
  same_deps c (state s) = true ->
  owner c = instance s ->
  showCamera (state s) = true ->
  let st' := setIsCameraLoading false (setShowCamera false (state s)) in
  step toDataURL s (Denied eid)
  = run_effect st'
      (cleanup (set_awaiting false c)
         (with_videoRef None
            (with_state st'
               (emit (Alert "Unable to access camera. Please make sure you have granted camera permissions.")
                  (with_closures (alter (set_awaiting false) eid (closures s)) s))))).
Proof.
  intros Hm Heff Hp Hdeps Hown Hshow st'. subst st'.
  destruct (pending_inv s eid c Hp) as [Hc Haw].
  cbn [step]. rewrite Hp. unfold setupStream_denied, setupStream_catch.
  rewrite Hown.
  rewrite (set_state_at _ _ (emit _ _)) by (first [exact Hm | reflexivity]).
  rewrite (set_state_at _ _ (with_state _ _)) by (first [exact Hm | reflexivity]).
  unfold commit. cbn [mounted with_state emit with_closures]. rewrite Hm.
  unfold render_video.
  cbn [state with_state showCamera setShowCamera setIsCameraLoading].
  cbn [effect closures with_videoRef with_state emit with_closures state]. rewrite Heff.
  cbn [mbind option_bind]. rewrite list_lookup_alter_eq, Hc. cbn [fmap option_fmap option_map].
  replace (same_deps (set_awaiting false c) _) with false; [reflexivity|].
  symmetry. unfold same_deps in *. cbn. apply andb_prop in Hdeps as [H _].
  rewrite Hshow in H. now destruct (dep_showCamera c).
Qed.

(** X12.  When the browser refuses the camera, the user is told, the view
    closes with the loading flag clear, the request is no longer pending,
    no other request is made and no stream is touched. *)
Theorem denied_closes_view (s : Sys) (eid : nat) (c : Closure) :
  mounted s = true ->
  effect s = Some eid ->
  pending eid s = Some c ->
  same_deps c (state s) = true ->
  owner c = instance s ->
  showCamera (state s) = true ->
  currentStream c = None ->
  let s' := step toDataURL s (Denied eid) in
  log s' = log s ++ [Alert "Unable to access camera. Please make sure you have granted camera permissions."]
  /\ showCamera (state s') = false
  /\ isCameraLoading (state s') = false
  /\ videoRef s' = None
  /\ (forall e, pending e s' = if Nat.eqb e eid then None else pending e s)
  /\ streams s' = streams s.
Proof.
  intros Hm Heff Hp Hdeps Hown Hshow Hcur s'. subst s'.
  rewrite (Denied_opening s eid c Hm Heff Hp Hdeps Hown Hshow).
  destruct (pending_inv s eid c Hp) as [Hc Haw].
  rewrite run_effect_closed by reflexivity.
  cbn [log state videoRef streams with_effect with_closures].
  split; [|split; [|split; [|split; [|split]]]].
  - now rewrite (untouched_cleanup log) by reflexivity.
  - now rewrite (kept_cleanup showCamera) by reflexivity.
  - rewrite cleanup_own by (cbn; assumption). cbn [state with_state].
    now destruct (bool_decide _).
  - now rewrite (untouched_cleanup videoRef) by reflexivity.
  - intros e.
    erewrite (pending_snoc_idle _ _ e _
                (with_closures (alter (set_awaiting false) eid (closures s)) s));
      [| cbn [closures with_effect with_closures]; reflexivity
       | now rewrite closures_cleanup | reflexivity].
    unfold pending. cbn [closures with_closures].
    destruct (Nat.eqb_spec e eid) as [->|Hne].
    + now rewrite list_lookup_alter_eq, Hc.
    + now rewrite list_lookup_alter_ne by congruence.
  - rewrite cleanup_own by (cbn; assumption). cbn [currentStream set_awaiting].
    rewrite Hcur. cbn [stop_tracks_opt streams with_state].
    now destruct (videoElement (set_awaiting false c)).
Qed.

(** X13.  Leaving the component while it shows a stream stops the camera:
    the cleanup of the current effect run stops every track of the stream
    that run was granted and touches no other stream, the listener and the
    source of the [<video>] element are cleared, and nothing is reported. *)
Theorem unmount_releases_camera (s : Sys) (eid sid : nat) (c : Closure) :
  mounted s = true ->
  effect s = Some eid ->
  closures s !! eid = Some c ->
  currentStream c = Some sid ->
  let s' := step toDataURL s Unmount in
  mounted s' = false
  /\ streams s' = alter (map stop) sid (streams s)
  /\ (forall i, i ∈ active_streams s' <-> i ∈ active_streams s /\ i <> sid)
  /\ (forall vid v, videoElement c = Some vid -> videos s' !! vid = Some v ->
        srcObject v = None /\ onloadedmetadata v = None)
  /\ effect s' = None
  /\ log s' = log s.
Proof.
  intros Hm Heff Hc Hcur s'. subst s'. cbn [step]. rewrite Hm. unfold unmount.
  rewrite Heff. cbn [mbind option_bind]. rewrite Hc.
  cbn [mounted streams videos effect log].
  assert (streams (cleanup c s) = alter (map stop) sid (streams s)) as Hs.
  { unfold cleanup. rewrite (untouched_set_state streams) by reflexivity.
    rewrite (untouched_on_video streams) by reflexivity. rewrite Hcur.
    cbn [stop_tracks_opt stop_tracks streams with_streams].
    now rewrite (untouched_set_state streams) by reflexivity. }
  split; [reflexivity|]. split; [exact Hs|]. split; [|split; [|split]].
  - now apply active_streams_stop.
  - intros vid v Hvid. unfold cleanup.
    rewrite (untouched_set_state videos) by reflexivity. rewrite Hvid.
    cbn [on_video videos with_videos]. rewrite list_lookup_alter_eq.
    intros Hv. apply fmap_Some in Hv as (v0 & _ & ->). now split.
  - reflexivity.
  - apply (untouched_cleanup log); reflexivity.
Qed.

(** X14.  The camera always opens on the rear camera, whichever one was in
    use when the view was last closed: one click renders the [<video>]
    element, sets the loading flag and leaves exactly one new request
    pending, made for [environment]. *)
Theorem start_opens_rear_camera (s : Sys) :
  closed_controls s = true ->
  commit s = s ->
  let s' := step toDataURL s ClickTakePhoto in
  facingMode (state s') = environment
  /\ showCamera (state s') = true
  /\ isCameraLoading (state s') = true
  /\ videoRef s' = Some (length (videos s))
  /\ effect s' = Some (length (closures s))
  /\ (exists c, pending (length (closures s)) s' = Some c
                /\ dep_facingMode c = environment
                /\ videoElement c = Some (length (videos s))
                /\ currentStream c = None)
  /\ log s' = log s.
Proof.
  intros Hctl Hs s'.
  unfold closed_controls in Hctl. apply andb_prop in Hctl as [Hm Hshow].
  apply negb_true_iff in Hshow.
  destruct (settled_inv s Hm Hs) as (Hr & c & Hc & Hd).
  assert (videoRef s = None) as Hv.
  { apply (f_equal videoRef) in Hr. unfold render_video in Hr. rewrite Hshow in Hr.
    now cbn in Hr. }
  set (st' := setShowCamera true (setFacingMode environment (state s))).
  set (x := with_videoRef (Some (length (videos s)))
              (with_videos (videos s ++ [blank_video]) (with_state st' s))).
  assert (s' = run_effect st' (cleanup c x)) as ->.
  { subst s'. cbn [step]. unfold closed_controls. rewrite Hm, Hshow. cbn [negb andb].
    unfold handleStartCameraClick.
    rewrite (set_state_at _ _ s) by (first [exact Hm | reflexivity]).
    rewrite (set_state_at _ _ (with_state _ _)) by (first [exact Hm | reflexivity]).
    unfold commit. cbn [mounted with_state]. rewrite Hm.
    unfold render_video. cbn [state with_state showCamera setShowCamera videoRef].
    rewrite Hv. cbn [effect closures with_videoRef with_videos with_state state videos].
    rewrite Hc.
    replace (same_deps c _) with false; [reflexivity|].
    symmetry. unfold same_deps in *. cbn. apply andb_prop in Hd as [H _].
    rewrite Hshow in H. now destruct (dep_showCamera c). }
  rewrite (run_effect_opening st' (cleanup c x) (length (videos s)));
    [| now rewrite (untouched_cleanup mounted) by reflexivity
     | reflexivity
     | now rewrite (untouched_cleanup videoRef) by reflexivity].
  cbn [state videoRef effect log with_effect with_closures with_state].
  assert (forall P : State -> FacingMode,
            (forall b st, P (setIsCameraLoading b st) = P st) ->
            (forall o st, P (setStream o st) = P st) ->
            P (match stream st' with
               | Some _ => setStream None (setIsCameraLoading true (state (cleanup c x)))
               | None => setIsCameraLoading true (state (cleanup c x))
               end) = P st') as Hfm.
  { intros P H1 H2. destruct (stream st'); rewrite ?H2, H1; now apply (kept_cleanup P). }
  assert (forall P : State -> bool,
            (forall b st, P (setIsCameraLoading b st) = P st) ->
            (forall o st, P (setStream o st) = P st) ->
            P (match stream st' with
               | Some _ => setStream None (setIsCameraLoading true (state (cleanup c x)))
               | None => setIsCameraLoading true (state (cleanup c x))
               end) = P st') as Hsb.
  { intros P H1 H2. destruct (stream st'); rewrite ?H2, H1; now apply (kept_cleanup P). }
  split; [now rewrite (Hfm facingMode)|]. split; [now rewrite (Hsb showCamera)|].
  split; [now destruct (stream st')|].
  split; [now rewrite (untouched_stop_tracks_opt videoRef), (untouched_cleanup videoRef)
                by reflexivity|].
  rewrite closures_cleanup. change (closures x) with (closures s).
  split; [reflexivity|]. split.
  - eexists. split.
    + unfold pending. cbn [closures with_effect with_closures].
      rewrite list_lookup_middle by reflexivity. cbn [awaiting]. reflexivity.
    + now cbn.
  - rewrite (untouched_stop_tracks_opt log) by reflexivity.
    now rewrite (untouched_cleanup log) by reflexivity.
Qed.




(** X16.  A click on the capture button always has exactly one outcome:
    either the picture is handed over and the camera view closes, or one
    alert is shown and nothing else changes. *)
Theorem capture_one_outcome (ctx_ok : bool) (s : Sys) :
  camera_controls s = true ->
  commit s = s ->
  let s' := step toDataURL s (ClickCapture ctx_ok) in
  (exists data, log s' = log s ++ [ImageSelected (inl data)]
                /\ showCamera (state s') = false
                /\ ctx_ok = true
                /\ exists v, current_video s = Some v /\ ready v = true)
  \/ (exists msg, s' = emit (Alert msg) s).
Proof.
  intros Hctl Hs s'. subst s'. cbn [step]. rewrite Hctl.
  destruct (controls_inv s Hctl) as (Hm & Hshow & Hload).
  assert (forall msg, exists msg', commit (emit (Alert msg) s) = emit (Alert msg') s) as Halert.
  { intros msg. exists msg. now rewrite commit_emit, Hs. }
  unfold capturePhoto. destruct (current_video s) as [v|] eqn:Hv; [|right; apply Halert].
  destruct (Nat.ltb _ _) eqn:H1; [right; apply Halert|].
  destruct (_ || _) eqn:H2; [right; apply Halert|].
  destruct ctx_ok; [|right; apply Halert].
  left. eexists. split; [|split; [|split; [reflexivity|]]].
  - rewrite log_commit. unfold stopCamera. rewrite log_set_state. reflexivity.
  - rewrite (kept_commit showCamera) by reflexivity. unfold stopCamera.
    now rewrite set_state_at by (first [exact Hm | reflexivity]).
  - exists v. split; [reflexivity|]. unfold ready. now rewrite H1, H2.
Qed.

(** X17.  Switching cameras on a live view: the stream on show is stopped
    before anything is asked of the browser, one request is left pending
    for the other camera, and the stream the browser then grants becomes
    the stream of the component. *)
Theorem switch_restarts_with_other_camera (s : Sys) (eid vid sid : nat) (c : Closure)
    (cap : option bool) (caps : list (option bool)) :
  camera_controls s = true ->
  videoRef s = Some vid ->
  effect s = Some eid ->
  closures s !! eid = Some c ->
  same_deps c (state s) = true ->
  owner c = instance s ->
  currentStream c = Some sid ->
  stream (state s) = Some sid ->
  let s1 := step toDataURL s ClickSwitch in
  let s2 := step toDataURL s1 (Granted (length (closures s)) (cap :: caps)) in
  (forall i, i ∈ active_streams s1 <-> i ∈ active_streams s /\ i <> sid)
  /\ length (streams s1) = length (streams s)
  /\ facingMode (state s1) = flip (facingMode (state s))
  /\ isCameraLoading (state s1) = true
  /\ stream (state s1) = None
  /\ (exists c1, pending (length (closures s)) s1 = Some c1
                 /\ dep_facingMode c1 = flip (facingMode (state s)))
  /\ streams s2 = streams s1 ++ [map new_track (cap :: caps)]
  /\ stream (state s2) = Some (length (streams s))
  /\ facingMode (state s2) = flip (facingMode (state s)).
Proof.
  intros Hctl Hvid Heff Hc Hdeps Hown Hcur Hst s1 s2.
  destruct (ClickSwitch_live toDataURL s eid vid sid c Hctl Hvid Heff Hc Hdeps Hown Hcur Hst)
    as (Hss1 & _ & He1 & Hc1 & Hm1 & Hi1 & Hv1 & Hst1).
  fold s1 in Hss1, He1, Hc1, Hm1, Hi1, Hv1, Hst1.
  destruct (controls_inv s Hctl) as (Hm & Hshow & Hload).
  assert (length (streams s1) = length (streams s)) as Hlen
    by (rewrite Hss1, !length_alter; reflexivity).
  assert (same_deps
            {| owner := instance s; dep_showCamera := true;
               dep_facingMode := flip (facingMode (state s)); seen_stream := Some sid;
               videoElement := Some vid; currentStream := None; awaiting := true |}
            (state s1) = true) as Hd1.
  { rewrite Hst1. unfold same_deps. cbn. rewrite Hshow.
    now destruct (flip (facingMode (state s))). }
  assert (showCamera (state s1) = true) as Hshow1 by (now rewrite Hst1).
  destruct (Granted_opening toDataURL s1 (length (closures s)) vid _ cap caps Hm1 Hv1 He1 Hc1
              eq_refl (eq_sym Hi1) Hd1 Hshow1) as (Hss2 & Hst2 & He2 & Hc2).
  fold s2 in Hss2, Hst2, He2, Hc2.
  split; [|split; [exact Hlen|split; [now rewrite Hst1|split; [now rewrite Hst1|
           split; [now rewrite Hst1|split; [|split; [exact Hss2|split]]]]]]].
  - intros i.
    rewrite (active_streams_stop s1 (with_streams (alter (map stop) sid (streams s)) s) sid Hss1).
    rewrite (active_streams_stop (with_streams (alter (map stop) sid (streams s)) s) s sid eq_refl).
    tauto.
  - eexists. split; [unfold pending; now rewrite Hc1|]. reflexivity.
  - now rewrite Hst2, Hlen.
  - subst s2. cbn [step]. unfold pending. rewrite Hc1. cbn [awaiting].
    rewrite (kept_commit facingMode) by reflexivity.
    unfold setupStream_granted. cbn [map].
    rewrite (untouched_on_video state) by reflexivity.
    rewrite !(kept_set_state facingMode) by reflexivity.
    cbn [state with_closures with_streams]. now rewrite Hst1.
Qed.

End CameraSteps.

Section CameraStepsExamples.
Import Canvas ImageUpload CameraProps SampleCamera SampleSteps.

Example rear_opening_state :
  state rear_opening
  = {| showCamera := true; stream := None; facingMode := environment;
       isCameraLoading := true; isTorchSupported := false; isTorchOn := false |}
  /\ pending 1 rear_opening
     = Some {| owner := 1; dep_showCamera := true; dep_facingMode := environment;
               seen_stream := None; videoElement := Some 0; currentStream := None;
               awaiting := true |}
  /\ active_streams rear_opening = [].
Proof. vm_compute. repeat split. Qed.

Example front_closed_state :
  state front_closed
  = {| showCamera := false; stream := None; facingMode := user;
       isCameraLoading := false; isTorchSupported := false; isTorchOn := false |}
  /\ active_streams front_closed = []
  /\ videoRef front_closed = None.
Proof. vm_compute. repeat split. Qed.

Lemma close_releases_camera_witness :
  camera_controls rear_live = true
  /\ streams (step encode rear_live ClickClose) = alter (map stop) 0 (streams rear_live)
  /\ state (step encode rear_live ClickClose)
     = setStream None (setIsCameraLoading false (setShowCamera false (state rear_live)))
  /\ videoRef (step encode rear_live ClickClose) = None.
Proof.
  assert (camera_controls rear_live = true) as Hctl by (vm_compute; reflexivity).
  assert (effect rear_live = Some 1) as Heff by (vm_compute; reflexivity).
  assert (closures rear_live !! 1
          = Some {| owner := 1; dep_showCamera := true; dep_facingMode := environment;
                    seen_stream := None; videoElement := Some 0; currentStream := Some 0;
                    awaiting := false |}) as Hc by (vm_compute; reflexivity).
  assert (stream (state rear_live) = Some 0) as Hst by (vm_compute; reflexivity).
  assert (1 = instance rear_live) as Hi by (vm_compute; reflexivity).
  destruct (close_releases_camera encode rear_live 1 0 _ Hctl Heff Hc
              ltac:(vm_compute; reflexivity) Hi eq_refl Hst)
    as (H1 & _ & H3 & H4 & _).
  split; [exact Hctl|]. split; [exact H1|]. split; [exact H3 | exact H4].
Defined.

Lemma capture_then_close_witness :
  camera_controls front_ready = true
  /\ exists v, current_video front_ready = Some v
     /\ step encode front_ready (ClickCapture true)
        = emit (ImageSelected
                  (inl (encode "image/jpeg"
                          (capture_canvas (facingMode (state front_ready)) v))))
            (step encode front_ready ClickClose).
Proof.
  assert (camera_controls front_ready = true) as Hctl by (vm_compute; reflexivity).
  assert (current_video front_ready
          = Some {| readyState := 4; videoWidth := 3; videoHeight := 2; frame := leaf;
                    srcObject := Some 1; onloadedmetadata := Some 2 |}) as Hv
    by (vm_compute; reflexivity).
  split; [exact Hctl|]. eexists. split; [exact Hv|].
  apply (capture_then_close encode front_ready _ Hctl Hv). reflexivity.
Defined.

Lemma denied_closes_view_witness :
  mounted rear_opening = true
  /\ showCamera (state rear_opening) = true
  /\ showCamera (state (step encode rear_opening (Denied 1))) = false
  /\ isCameraLoading (state (step encode rear_opening (Denied 1))) = false
  /\ streams (step encode rear_opening (Denied 1)) = streams rear_opening.
Proof.
  assert (mounted rear_opening = true) as Hm by (vm_compute; reflexivity).
  assert (effect rear_opening = Some 1) as Heff by (vm_compute; reflexivity).
  assert (pending 1 rear_opening
          = Some {| owner := 1; dep_showCamera := true; dep_facingMode := environment;
                    seen_stream := None; videoElement := Some 0; currentStream := None;
                    awaiting := true |}) as Hp by (vm_compute; reflexivity).
  assert (showCamera (state rear_opening) = true) as Hshow by (vm_compute; reflexivity).
  assert (1 = instance rear_opening) as Hi by (vm_compute; reflexivity).
  destruct (denied_closes_view encode rear_opening 1 _ Hm Heff Hp
              ltac:(vm_compute; reflexivity) Hi Hshow eq_refl)
    as (_ & H2 & H3 & _ & _ & H6).
  split; [exact Hm|]. split; [exact Hshow|]. split; [exact H2|]. split; [exact H3 | exact H6].
Defined.

Lemma unmount_releases_camera_witness :
  mounted rear_live = true
  /\ mounted (step encode rear_live Unmount) = false
  /\ streams (step encode rear_live Unmount) = alter (map stop) 0 (streams rear_live).
Proof.
  assert (mounted rear_live = true) as Hm by (vm_compute; reflexivity).
  assert (effect rear_live = Some 1) as Heff by (vm_compute; reflexivity).
  assert (closures rear_live !! 1
          = Some {| owner := 1; dep_showCamera := true; dep_facingMode := environment;
                    seen_stream := None; videoElement := Some 0; currentStream := Some 0;
                    awaiting := false |}) as Hc by (vm_compute; reflexivity).
  destruct (unmount_releases_camera encode rear_live 1 0 _ Hm Heff Hc eq_refl)
    as (H1 & H2 & _).
  split; [exact Hm|]. split; [exact H1 | exact H2].
Defined.

Lemma start_opens_rear_camera_witness :
  closed_controls front_closed = true
  /\ facingMode (state front_closed) = user
  /\ facingMode (state (step encode front_closed ClickTakePhoto)) = environment
  /\ isCameraLoading (state (step encode front_closed ClickTakePhoto)) = true.
Proof.
  assert (closed_controls front_closed = true) as Hctl by (vm_compute; reflexivity).
  assert (commit front_closed = front_closed) as Hs by (vm_compute; reflexivity).
  destruct (start_opens_rear_camera encode front_closed Hctl Hs) as (H1 & _ & H3 & _).
  split; [exact Hctl|]. split; [vm_compute; reflexivity|]. split; [exact H1 | exact H3].
Defined.


Lemma capture_one_outcome_witness :
  camera_controls rear_ready = true
  /\ ((exists data,
         log (step encode rear_ready (ClickCapture true))
         = log rear_ready ++ [ImageSelected (inl data)]
         /\ showCamera (state (step encode rear_ready (ClickCapture true))) = false
         /\ true = true
         /\ exists v, current_video rear_ready = Some v /\ ready v = true)
      \/ (exists msg,
            step encode rear_ready (ClickCapture true) = emit (Alert msg) rear_ready)).
Proof.
  assert (camera_controls rear_ready = true) as Hctl by (vm_compute; reflexivity).
  assert (commit rear_ready = rear_ready) as Hs by (vm_compute; reflexivity).
  split; [exact Hctl|]. exact (capture_one_outcome encode true rear_ready Hctl Hs).
Defined.

Lemma switch_restarts_with_other_camera_witness :
  camera_controls rear_live = true
  /\ facingMode (state (step encode rear_live ClickSwitch)) = flip (facingMode (state rear_live))
  /\ stream (state (step encode rear_live ClickSwitch)) = None
  /\ stream (state (step encode (step encode rear_live ClickSwitch)
                      (Granted (length (closures rear_live)) [None])))
     = Some (length (streams rear_live)).
Proof.
  assert (camera_controls rear_live = true) as Hctl by (vm_compute; reflexivity).
  assert (videoRef rear_live = Some 0) as Hv by (vm_compute; reflexivity).
  assert (effect rear_live = Some 1) as Heff by (vm_compute; reflexivity).
  assert (closures rear_live !! 1
          = Some {| owner := 1; dep_showCamera := true; dep_facingMode := environment;
                    seen_stream := None; videoElement := Some 0; currentStream := Some 0;
                    awaiting := false |}) as Hc by (vm_compute; reflexivity).
  assert (stream (state rear_live) = Some 0) as Hst by (vm_compute; reflexivity).
  assert (1 = instance rear_live) as Hi by (vm_compute; reflexivity).
  destruct (switch_restarts_with_other_camera encode rear_live 1 0 0 _ None [] Hctl Hv Heff Hc
              ltac:(vm_compute; reflexivity) Hi eq_refl Hst)
    as (_ & _ & H3 & _ & H5 & _ & _ & H8 & _).
  split; [exact Hctl|]. split; [exact H3|]. split; [exact H5 | exact H8].
Defined.

(** The torch is switched on, then the camera is switched: the flag still
    says on, the track of the new stream has its torch off. *)
Example torch_flag_after_switch :
  let s := run encode rear_live
             [ClickTorch true; ClickSwitch; Granted 2 [Some true]; Played 2 true] in
  isTorchOn (state s) = true
  /\ stream (state s) = Some 1
  /\ streams s !! 1
     = Some [{| live := true; torch_capability := Some true; torch_setting := false |}].
Proof. vm_compute. repeat split. Qed.

End CameraStepsExamples.
